(** * Workload external storage: URI parser and adapter

    A shallow embedding of [pkg/storage/cloudimpl/workload_storage.go]:
    [ParseWorkloadConfig], [makeWorkloadStorage] and the methods of
    [workloadStorage], together with the parts of Go's standard library
    they call ([strings.Trim], [strings.Split], [strings.ToLower],
    [strings.Join], [strconv.ParseInt], [url.Values]).

    Go strings are byte sequences; they are modelled by [string], whose
    characters ([ascii]) are bytes. *)

From stdpp Require Import gmap strings list fin_maps.
From Stdlib Require Import ZArith Ascii String.

Local Open Scope string_scope.
Local Open Scope Z_scope.

(** The numeric value of a byte. *)
Definition byte_val (c : ascii) : Z := Z.of_N (N_of_ascii c).

(** ** Package [strings] *)
Module GoStrings.

(** Membership of a byte in a cutset (exact for ASCII cutsets, where a
    rune is a byte). *)
Fixpoint in_cutset (c : ascii) (cutset : string) : bool :=
  match cutset with
  | EmptyString => false
  | String d cutset' => Ascii.eqb c d || in_cutset c cutset'
  end.

Fixpoint TrimLeft (s cutset : string) : string :=
  match s with
  | EmptyString => EmptyString
  | String c s' => if in_cutset c cutset then TrimLeft s' cutset else s
  end.

Fixpoint TrimRight (s cutset : string) : string :=
  match s with
  | EmptyString => EmptyString
  | String c s' =>
      match TrimRight s' cutset with
      | EmptyString =>
          if in_cutset c cutset then EmptyString else String c EmptyString
      | r => String c r
      end
  end.

(** [strings.Trim]: all leading and trailing bytes of [cutset] removed. *)
Definition Trim (s cutset : string) : string :=
  TrimLeft (TrimRight s cutset) cutset.

Fixpoint HasPrefix (s prefix : string) : bool :=
  match prefix, s with
  | EmptyString, _ => true
  | String p prefix', String c s' => Ascii.eqb c p && HasPrefix s' prefix'
  | String _ _, EmptyString => false
  end.

(** The loop of [genSplit]: cut at each occurrence of [sep], left to
    right, occurrences not overlapping.  [skip] counts the bytes of the
    occurrence of [sep] under the cursor that are still to be passed. *)
Fixpoint genSplit (s sep : string) (skip : nat) : list string :=
  match s with
  | EmptyString => [EmptyString]
  | String c s' =>
      match skip with
      | S k => genSplit s' sep k
      | O =>
          if HasPrefix s sep
          then EmptyString :: genSplit s' sep (Nat.pred (String.length sep))
          else match genSplit s' sep O with
               | seg :: rest => String c seg :: rest
               | [] => [String c EmptyString]
               end
      end
  end.

Fixpoint explode (s : string) : list string :=
  match s with
  | EmptyString => []
  | String c s' => String c EmptyString :: explode s'
  end.

(** [strings.Split]: the substrings between the occurrences of [sep];
    [Count(s, sep) + 1] of them when [sep] is not empty.  With an empty
    [sep], Go splits after each UTF-8 sequence, which is after each byte
    on ASCII input. *)
Definition Split (s sep : string) : list string :=
  match sep with
  | EmptyString => explode s
  | String _ _ => genSplit s sep O
  end.

(** Lower-casing of one byte: ['A'..'Z'] to ['a'..'z']. *)
Definition lower_byte (c : ascii) : ascii :=
  let n := byte_val c in
  if (65 <=? n) && (n <=? 90)
  then ascii_of_N (Z.to_N (n + 32))
  else c.

(** [strings.ToLower].  On ASCII input this is Go's function.  On other
    input Go maps [unicode.ToLower] over the runes, and no rune outside
    ASCII lower-cases to one of the letters c, s, v; the bytes outside
    ASCII are left as they are here, so that [ToLower s = "csv"] holds
    for the same strings [s] as in Go. *)
Fixpoint ToLower (s : string) : string :=
  match s with
  | EmptyString => EmptyString
  | String c s' => String (lower_byte c) (ToLower s')
  end.

(** [strings.Join]. *)
Fixpoint Join (elems : list string) (sep : string) : string :=
  match elems with
  | [] => EmptyString
  | [e] => e
  | e :: elems' => e +:+ sep +:+ Join elems' sep
  end.

End GoStrings.

(** ** Package [strconv] *)
Module Strconv.

Inductive Err := ErrSyntax | ErrRange | ErrBase | ErrBitSize.

(** [*strconv.NumError]. *)
Record NumError := mkNumError { Func : string; Num : string; Cause : Err }.

Definition IntSize : Z := 64.
Definition maxUint64 : Z := 2 ^ 64 - 1.

(** The value of a byte as a digit: ['0'..'9'], then the letters of
    either case from 10 on. *)
Definition digit (c : ascii) : option Z :=
  let n := byte_val c in
  let l := Z.lor n 32 in
  if (48 <=? n) && (n <=? 57) then Some (n - 48)
  else if (97 <=? l) && (l <=? 122) then Some (l - 97 + 10)
  else None.

(** The loop of [ParseUint] over the bytes of the number, [n] the
    [uint64] accumulated so far. *)
Fixpoint parseUint_loop (s : string) (base cutoff maxVal n : Z)
  : Z * option Err :=
  match s with
  | EmptyString => (n, None)
  | String c s' =>
      match digit c with
      | None => (0, Some ErrSyntax)
      | Some d =>
          if d >=? base then (0, Some ErrSyntax)
          else if n >=? cutoff then (maxVal, Some ErrRange)
          else
            let n' := (n * base) mod 2 ^ 64 in
            let n1 := (n' + d) mod 2 ^ 64 in
            if (n1 <? n') || (n1 >? maxVal) then (maxVal, Some ErrRange)
            else parseUint_loop s' base cutoff maxVal n1
      end
  end.

(** [strconv.ParseUint] for an explicit base (2 to 36).  Base 0, which
    reads the base off a prefix of the number, is not modelled and is
    answered like the bases Go refuses. *)
Definition ParseUint (s : string) (base bitSize : Z) : Z * option Err :=
  if decide (s = EmptyString) then (0, Some ErrSyntax)
  else if negb ((2 <=? base) && (base <=? 36)) then (0, Some ErrBase)
  else
    let bitSize := if bitSize =? 0 then IntSize else bitSize in
    if (bitSize <? 0) || (bitSize >? 64) then (0, Some ErrBitSize)
    else
      let cutoff := maxUint64 / base + 1 in
      let maxVal := 2 ^ bitSize - 1 in
      parseUint_loop s base cutoff maxVal 0.

(** [strconv.ParseInt]: the value and the error, as Go returns them. *)
Definition ParseInt (s : string) (base bitSize : Z)
  : Z * option NumError :=
  let fnParseInt := "ParseInt" in
  match s with
  | EmptyString => (0, Some (mkNumError fnParseInt s ErrSyntax))
  | String c rest =>
      let s0 := s in
      let '(neg, s) :=
        if Ascii.eqb c "+" then (false, rest)
        else if Ascii.eqb c "-" then (true, rest)
        else (false, s) in
      match ParseUint s base bitSize with
      | (_, Some ErrSyntax) => (0, Some (mkNumError fnParseInt s0 ErrSyntax))
      | (_, Some ErrBase) => (0, Some (mkNumError fnParseInt s0 ErrBase))
      | (_, Some ErrBitSize) =>
          (0, Some (mkNumError fnParseInt s0 ErrBitSize))
      | (un, _) =>
          let bitSize := if bitSize =? 0 then IntSize else bitSize in
          let cutoff := 2 ^ (bitSize - 1) in
          if negb neg && (un >=? cutoff)
          then (cutoff - 1, Some (mkNumError fnParseInt s0 ErrRange))
          else if neg && (un >? cutoff)
          then (- cutoff, Some (mkNumError fnParseInt s0 ErrRange))
          else (if neg then - un else un, None)
      end
  end.

End Strconv.

(** ** Package [net/url] *)
Module Url.

(** [url.Values]: [map[string][]string]. *)
Abbreviation Values := (gmap string (list string)).

(** [Values.Get]: the first value of the key, [""] when there is none. *)
Definition Get (v : Values) (key : string) : string :=
  match v !! key with
  | Some (x :: _) => x
  | _ => EmptyString
  end.

(** [Values.Del]. *)
Definition Del (v : Values) (key : string) : Values := delete key v.

(** [*url.URL], with the fields the parser reads.  [Query] holds the
    value of the method [uri.Query()], the parsed [RawQuery]; each call
    of the method builds a map of its own, which the caller may
    change. *)
Record URL := mkURL { Path : string; Query : Values }.

End Url.

(** ** Errors and results *)

(** A Go [error] value: a message built by [errors.Errorf] or
    [errors.New], an error wrapped with a message by [errors.Wrapf], or
    the [*strconv.NumError] of a failed number parse. *)
Inductive error : Type :=
| Errorf (msg : string)
| Wrapf (cause : error) (msg : string)
| NumErr (e : Strconv.NumError).

(** How a call ends: with a value, with an error, or in a panic. *)
Inductive res (A : Type) : Type :=
| Ok (a : A)
| Err (e : error)
| Panic (msg : string).
Arguments Ok {A} a.
Arguments Err {A} e.
Arguments Panic {A} msg.

(** Code that reads and writes a state [St] and ends in a [res]. *)
Definition M (St A : Type) : Type := St -> res A * St.

Definition ret {St A} (a : A) : M St A := fun st => (Ok a, st).

Definition fail {St A} (e : error) : M St A := fun st => (Err e, st).

Definition panic {St A} (msg : string) : M St A := fun st => (Panic msg, st).

Definition bind {St A B} (m : M St A) (k : A -> M St B) : M St B :=
  fun st =>
    match m st with
    | (Ok a, st') => k a st'
    | (Err e, st') => (Err e, st')
    | (Panic msg, st') => (Panic msg, st')
    end.

Notation "x <- m ;; k" := (bind m (fun x => k))
  (at level 100, m at next level, right associativity).
Notation "m ;;; k" := (bind m (fun _ => k))
  (at level 100, right associativity).

(** ** Package [workload] *)
Module Workload.

(** Modelled from the spec: [workload.Table] is not under src/.  A table
    has a name, a row-generation function from a row index to the encoded
    row, and a row count.  The zero value of the Go struct has the empty
    name and no function. *)
Record Table := mkTable {
  Table_Name : string;
  rowGenerationFunction : option (Z -> list string);
  rowCount : Z
}.

Definition Table_zero : Table := mkTable EmptyString None 0.

(** Modelled from the spec: [workload.Generator] is not under src/.  A
    generator owns its tables; one that is also a [workload.Flagser] has a
    flag set whose [Parse] takes the flag strings and either fails or
    leaves the generator configured by them. *)
#[warnings="-register-all"]
Inductive Generator : Type := mkGenerator {
  Tables : list Table;
  Flagser : option (list string -> error + Generator)
}.

(** Modelled from the spec: [workload.Meta] is not under src/.  The
    registry's entry of a generator: its name, its canonical version string
    and a constructor without arguments. *)
Record Meta := mkMeta {
  Meta_Name : string;
  Meta_Version : string;
  Meta_New : unit -> Generator
}.

(** Modelled from the spec: the reader of [workload.NewCSVRowsReader] is
    not under src/.  A row stream over a table: the cursor, set to the
    first row of the range when the stream is opened, and the end bound. *)
Record CSVRowsReader := mkCSVRowsReader {
  reader_table : Table;
  cursor : Z;
  batchEnd : Z
}.

End Workload.

(** ** The state outside the adapter *)

(** The calls made into package [workload], in the order they are made. *)
Inductive Call : Type :=
| CallGet (name : string)
| CallNew (name : string)
| CallFlagsParse (flags : list string)
| CallTables
| CallNewCSVRowsReader (table : string) (batchStart batchEnd : Z).

(** The generator registry of package [workload], the usage counters of
    package [telemetry], and the log of the calls into [workload]. *)
Record World := mkWorld {
  registered : gmap string Workload.Meta;
  counters : gmap string Z;
  calls : list Call
}.

Definition log (c : Call) (w : World) : World :=
  mkWorld (registered w) (counters w) (calls w ++ [c]).

(** Modelled from the spec: [telemetry.Count] is not under src/ and the
    spec does not describe it; it is taken to add one to the usage counter
    of the feature and to do nothing else. *)
Definition telemetry_Count (feature : string) : M World unit :=
  fun w =>
    (Ok tt,
     mkWorld (registered w)
             (<[feature := default 0 (counters w !! feature) + 1]> (counters w))
             (calls w)).

(** The error of a name the registry does not know. *)
Definition UnknownGenerator (name : string) : error :=
  Errorf ("unknown generator: " +:+ name).

(** Modelled from the spec: [workload.Get] is not under src/.  A lookup by
    name in the registry, which returns the generator's metadata; a name
    that is not registered fails with [UnknownGenerator]. *)
Definition workload_Get (name : string) : M World Workload.Meta :=
  fun w =>
    match registered w !! name with
    | Some meta => (Ok meta, log (CallGet name) w)
    | None => (Err (UnknownGenerator name), log (CallGet name) w)
    end.

(** [meta.New()]. *)
Definition meta_New (meta : Workload.Meta) : M World Workload.Generator :=
  fun w => (Ok (Workload.Meta_New meta tt), log (CallNew (Workload.Meta_Name meta)) w).

(** [f.Flags().Parse(flags)] on a generator that is a [Flagser]: the error
    of the flag set, or the generator as the flags leave it. *)
Definition Flags_Parse (parse : list string -> error + Workload.Generator)
    (flags : list string) : World -> (error + Workload.Generator) * World :=
  fun w => (parse flags, log (CallFlagsParse flags) w).

(** [gen.Tables()]. *)
Definition gen_Tables (gen : Workload.Generator) : M World (list Workload.Table) :=
  fun w => (Ok (Workload.Tables gen), log CallTables w).

(** [workload.NewCSVRowsReader(t, batchStart, batchEnd)]. *)
Definition NewCSVRowsReader (t : Workload.Table) (batchStart batchEnd : Z)
  : M World Workload.CSVRowsReader :=
  fun w =>
    (Ok (Workload.mkCSVRowsReader t batchStart batchEnd),
     log (CallNewCSVRowsReader (Workload.Table_Name t) batchStart batchEnd) w).

(** ** Package [roachpb] *)
Module Roachpb.

Inductive ExternalStorageProvider :=
| ExternalStorageProvider_Unknown
| ExternalStorageProvider_Workload.

(** [roachpb.ExternalStorage_Workload]. *)
Record ExternalStorage_Workload := mkExternalStorage_Workload {
  Format : string;
  Generator : string;
  Version : string;
  Table : string;
  Flags : list string;
  BatchBegin : Z;
  BatchEnd : Z
}.

(** [roachpb.ExternalStorage], with the fields this provider uses;
    [WorkloadConfig] is a pointer, [None] when nil. *)
Record ExternalStorage := mkExternalStorage {
  Provider : ExternalStorageProvider;
  WorkloadConfig : option ExternalStorage_Workload
}.

End Roachpb.

(** ** Package [cloudimpl]: the adapter *)

Import Roachpb.

(** The errors of [workload_storage.go], by the place that builds them. *)
Definition InfoMissing : error :=
  Errorf "workload upload requested but info missing".

Definition UnsupportedFormat (format : string) : error :=
  Errorf ("unsupported format: " +:+ format).

(** The byte of a double quote. *)
Definition dquote : string := String "034"%char EmptyString.

Definition VersionMismatch (name expected actual : string) : error :=
  Errorf ("expected " +:+ name +:+ " version " +:+ dquote +:+ expected
          +:+ dquote +:+ " but got " +:+ dquote +:+ actual +:+ dquote).

Definition InvalidFlags (cause : error) (flags : list string) : error :=
  Wrapf cause ("parsing parameters " +:+ GoStrings.Join flags " ").

Definition UnknownTable (table generator : string) : error :=
  Errorf ("unknown table " +:+ table +:+ " for generator " +:+ generator).

Definition UnexpectedBasename : error :=
  Errorf "basenames are not supported by workload storage".

Definition WritesNotSupported : error :=
  Errorf "workload storage does not support writes".

Definition ListingNotSupported : error :=
  Errorf "workload storage does not support listing files".

Definition DeletesNotSupported : error :=
  Errorf "workload storage does not support deletes".

Definition SizingNotSupported : error :=
  Errorf "workload storage does not support sizing".

(** The error of an operation the adapter does not support, by the name
    of the operation. *)
Definition OperationNotSupported (operation : string) : error :=
  Errorf ("workload storage does not support " +:+ operation).

Definition MalformedPath (path : string) : error :=
  Errorf ("path must be of the form /<format>/<generator>/<table>: " +:+ path).

Definition MissingVersion : error :=
  Errorf "parameter version is required".

Section Adapter.

(** [base.ExternalIODirConfig] and [*cluster.Settings] are declared
    outside this file; the adapter stores them and hands them back. *)
Context {ExternalIODirConfig ClusterSettings : Type}.

(** [ExternalStorageContext], with the fields the adapter reads. *)
Record ExternalStorageContext := mkExternalStorageContext {
  IOConf : ExternalIODirConfig;
  Settings : ClusterSettings
}.

(** [workloadStorage].  [conf] is the pointer the destination came with;
    nothing in this file writes through it. *)
Record workloadStorage := mkWorkloadStorage {
  conf : ExternalStorage_Workload;
  ioConf : ExternalIODirConfig;
  gen : Workload.Generator;
  table : Workload.Table;
  settings : ClusterSettings
}.

(** The loop over [gen.Tables()]: the first table of the requested name is
    stored in the adapter, and the loop ends there. *)
Fixpoint select_table (tables : list Workload.Table) (s : workloadStorage)
  : workloadStorage :=
  match tables with
  | [] => s
  | t :: tables' =>
      if decide (Workload.Table_Name t = Table (conf s))
      then mkWorkloadStorage (conf s) (ioConf s) (gen s) t (settings s)
      else select_table tables' s
  end.

Definition makeWorkloadStorage (args : ExternalStorageContext)
    (dest : ExternalStorage) : M World workloadStorage :=
  telemetry_Count "external-io.workload" ;;;
  match WorkloadConfig dest with
  | None => fail InfoMissing
  | Some conf =>
      if decide (GoStrings.ToLower (Format conf) <> "csv")
      then fail (UnsupportedFormat (Format conf))
      else
        meta <- workload_Get (Generator conf) ;;
        if decide (Workload.Meta_Version meta <> Version conf)
        then fail (VersionMismatch (Workload.Meta_Name meta) (Version conf)
                                   (Workload.Meta_Version meta))
        else
          gen <- meta_New meta ;;
          gen <- match Workload.Flagser gen with
                 | Some parse =>
                     fun w =>
                       match Flags_Parse parse (Flags conf) w with
                       | (inl err, w') =>
                           (Err (InvalidFlags err (Flags conf)), w')
                       | (inr gen', w') => (Ok gen', w')
                       end
                 | None => ret gen
                 end ;;
          let s := mkWorkloadStorage conf (IOConf args) gen Workload.Table_zero
                                     (Settings args) in
          tables <- gen_Tables gen ;;
          let s := select_table tables s in
          if decide (Workload.Table_Name (table s) = "")
          then fail (UnknownTable (Table conf) (Workload.Meta_Name meta))
          else ret s
  end.

(** The state a method of the adapter runs in: the adapter behind the
    receiver pointer, and the world. *)
Definition Store : Type := workloadStorage * World.

Definition self : M Store workloadStorage := fun st => (Ok (fst st), st).

(** A call into the world from a method. *)
Definition in_world {A} (m : M World A) : M Store A :=
  fun st => let '(r, w) := m (snd st) in (r, (fst st, w)).

Definition Conf : M Store ExternalStorage :=
  s <- self ;;
  ret (mkExternalStorage ExternalStorageProvider_Workload (Some (conf s))).

Definition ExternalIOConf : M Store ExternalIODirConfig :=
  s <- self ;; ret (ioConf s).

(** The method [Settings]; the underscore keeps it apart from the field
    of the context. *)
Definition Settings_ : M Store ClusterSettings :=
  s <- self ;; ret (settings s).

Definition ReadFileAt (basename : string) (offset : Z)
  : M Store (Workload.CSVRowsReader * Z) :=
  panic "unimplemented".

(** [ioutil.NopCloser(r)] adds a [Close] that does nothing; the reader is
    returned as it is.  The conversions [int(...)] of the two bounds keep
    their value, [int] having 64 bits on the platforms the code runs on. *)
Definition ReadFile (basename : string) : M Store Workload.CSVRowsReader :=
  s <- self ;;
  if decide (basename <> "")
  then fail UnexpectedBasename
  else
    r <- in_world (NewCSVRowsReader (table s) (BatchBegin (conf s))
                                    (BatchEnd (conf s))) ;;
    ret r.

Definition WriteFile (basename : string) (content : string) : M Store unit :=
  fail WritesNotSupported.

Definition ListFiles (patternSuffix : string) : M Store (list string) :=
  fail ListingNotSupported.

Definition Delete (basename : string) : M Store unit :=
  fail DeletesNotSupported.

Definition Size (basename : string) : M Store Z :=
  fail SizingNotSupported.

Definition Close : M Store unit := ret tt.

End Adapter.

(** ** Package [cloudimpl]: the parser *)

Section Parser.

(** The order in which a [range] loop visits the entries of a map.  Go
    leaves it unspecified; each entry comes once. *)
Variable range : Url.Values -> list (string * list string).
Hypothesis range_perm : forall q : Url.Values, range q ≡ₚ map_to_list q.

(** The two loops that turn what is left of the query into flags: one flag
    appended per value of each key. *)
Definition append_flags (flags : list string) (q : Url.Values) : list string :=
  foldl (fun flags '(k, vs) =>
           foldl (fun flags v => (flags ++ ["--" +:+ k +:+ "=" +:+ v])%list)
                 flags vs)
        flags (range q).

(** [ParseWorkloadConfig]: the [roachpb.ExternalStorage] and the error it
    returns.  On an error the returned configuration has the provider set
    and no [WorkloadConfig]. *)
Definition ParseWorkloadConfig (uri : Url.URL) : ExternalStorage * option error :=
  let conf := mkExternalStorage ExternalStorageProvider_Workload None in
  let pathParts := GoStrings.Split (GoStrings.Trim (Url.Path uri) "/") "/" in
  match pathParts with
  | [format; generator; table] =>
      let q := Url.Query uri in
      if decide (q !! "version" = None)
      then (conf, Some MissingVersion)
      else
        let version := Url.Get q "version" in
        let q := Url.Del q "version" in
        let s := Url.Get q "row-start" in
        match (if decide (0 < String.length s)%nat
               then (Url.Del q "row-start", Strconv.ParseInt s 10 64)
               else (q, (0, None)))
        with
        | (_, (_, Some err)) => (conf, Some (NumErr err))
        | (q, (batchBegin, None)) =>
            let e := Url.Get q "row-end" in
            match (if decide (0 < String.length e)%nat
                   then (Url.Del q "row-end", Strconv.ParseInt e 10 64)
                   else (q, (0, None)))
            with
            | (_, (_, Some err)) => (conf, Some (NumErr err))
            | (q, (batchEnd, None)) =>
                let c := mkExternalStorage_Workload
                           format generator version table
                           (append_flags [] q) batchBegin batchEnd in
                (mkExternalStorage ExternalStorageProvider_Workload (Some c),
                 None)
            end
        end
  | _ => (conf, Some (MalformedPath (Url.Path uri)))
  end.

End Parser.

(** ** Vocabulary of the statements *)

(** The error is a version mismatch, whatever the three strings it
    carries. *)
Definition is_VersionMismatch (e : error) : Prop :=
  exists name expected actual, e = VersionMismatch name expected actual.

(** The error is the one of a row bound that is no number. *)
Definition is_BadRowBound (e : error) : Prop :=
  exists err, e = NumErr err.

(** What applying the extra flags to a fresh generator gives: the
    generator as it is when it takes no flags, the outcome of its flag set
    otherwise. *)
Definition configured (gen : Workload.Generator) (flags : list string)
  : error + Workload.Generator :=
  match Workload.Flagser gen with
  | Some parse => parse flags
  | None => inr gen
  end.

(** The segments of a URI path. *)
Definition segments (path : string) : list string :=
  GoStrings.Split (GoStrings.Trim path "/") "/".

(** The flag strings of one query key. *)
Definition flags_of (kvs : string * list string) : list string :=
  map (fun v => "--" +:+ kvs.1 +:+ "=" +:+ v) kvs.2.

(** The configuration returned with every parse error. *)
Definition no_config : ExternalStorage :=
  mkExternalStorage ExternalStorageProvider_Workload None.

(** What the parser reads off a row bound: the number its first value
    parses to, 0 when the key is absent or that value is empty. *)
Definition row_bound (q : Url.Values) (key : string)
  : Z * option Strconv.NumError :=
  let s := Url.Get q key in
  if decide (0 < String.length s)%nat then Strconv.ParseInt s 10 64
  else (0, None).

(** The query without a row bound the parser has read: the key is deleted
    when its first value is not empty. *)
Definition strip (q : Url.Values) (key : string) : Url.Values :=
  if decide (0 < String.length (Url.Get q key))%nat then Url.Del q key else q.

(** The query as it reaches the loops that build the flags. *)
Definition remaining (q : Url.Values) : Url.Values :=
  strip (strip (Url.Del q "version") "row-start") "row-end".

(** A byte that is a decimal digit. *)
Definition is_digit (c : ascii) : bool :=
  (48 <=? byte_val c) && (byte_val c <=? 57).

(** The number a string of decimal digits denotes, read after the digits
    that gave [acc]; [None] when a byte is no digit.  No bound. *)
Fixpoint decimal_value (acc : Z) (s : string) : option Z :=
  match s with
  | EmptyString => Some acc
  | String c s' =>
      if is_digit c then decimal_value (acc * 10 + (byte_val c - 48)) s'
      else None
  end.

(** The integer a string denotes in base 10: an optional sign, then one
    digit or more. *)
Definition decimal (s : string) : option Z :=
  match s with
  | EmptyString => None
  | String c rest =>
      if Ascii.eqb c "+"
      then (if decide (rest = "") then None else decimal_value 0 rest)
      else if Ascii.eqb c "-"
      then (if decide (rest = "") then None
            else Z.opp <$> decimal_value 0 rest)
      else decimal_value 0 s
  end.

(** The base-10 integers of 64 bits: those from -2^63 to 2^63 - 1. *)
Definition int64_decimal (s : string) : option Z :=
  match decimal s with
  | Some n => if (- 2 ^ 63 <=? n) && (n <? 2 ^ 63) then Some n else None
  | None => None
  end.

(** The first and the last byte of a string. *)
Definition first_byte (s : string) : option ascii :=
  match s with
  | EmptyString => None
  | String c _ => Some c
  end.

Fixpoint last_byte (s : string) : option ascii :=
  match s with
  | EmptyString => None
  | String c EmptyString => Some c
  | String _ s' => last_byte s'
  end.

(** The string has ASCII bytes only: on such a string a rune is a byte, and
    [strings.ToLower] changes the letters A to Z and nothing else. *)
Fixpoint is_ascii (s : string) : bool :=
  match s with
  | EmptyString => true
  | String c s' => (byte_val c <? 128) && is_ascii s'
  end.

(** ** Sequences of calls on one adapter *)

(** The string has the byte. *)
Fixpoint has_byte (c : ascii) (s : string) : bool :=
  match s with
  | EmptyString => false
  | String d s' => Ascii.eqb d c || has_byte c s'
  end.

(** The number of times the string has the byte. *)
Fixpoint count_byte (c : ascii) (s : string) : nat :=
  match s with
  | EmptyString => O
  | String d s' => (if Ascii.eqb d c then 1 else 0) + count_byte c s'
  end.

(** The path of the URI that names a format, a generator and a table. *)
Definition path_of (format generator table : string) : string :=
  String "/" (format +:+ "/" +:+ generator +:+ "/" +:+ table).

Section Requests.

Context {ExternalIODirConfig ClusterSettings : Type}.

(** The adapter before the loop over the tables. *)
Definition unbound (args : @ExternalStorageContext ExternalIODirConfig ClusterSettings)
    (c : ExternalStorage_Workload) (g : Workload.Generator)
  : @workloadStorage ExternalIODirConfig ClusterSettings :=
  mkWorkloadStorage c (IOConf args) g Workload.Table_zero (Settings args).

(** A call of one of the methods of [workloadStorage], with its
    arguments. *)
Inductive Op : Type :=
| OpConf
| OpExternalIOConf
| OpSettings
| OpReadFileAt (basename : string) (offset : Z)
| OpReadFile (basename : string)
| OpWriteFile (basename content : string)
| OpListFiles (patternSuffix : string)
| OpDelete (basename : string)
| OpSize (basename : string)
| OpClose.

(** What a method returns beside its error. *)
Inductive Value : Type :=
| VConf (es : ExternalStorage)
| VIOConf (c : ExternalIODirConfig)
| VSettings (c : ClusterSettings)
| VReaderAt (r : Workload.CSVRowsReader * Z)
| VReader (r : Workload.CSVRowsReader)
| VNames (names : list string)
| VSize (n : Z)
| VNone.

Definition run_op (op : Op)
  : M (@Store ExternalIODirConfig ClusterSettings) Value :=
  match op with
  | OpConf => es <- Conf ;; ret (VConf es)
  | OpExternalIOConf => c <- ExternalIOConf ;; ret (VIOConf c)
  | OpSettings => c <- Settings_ ;; ret (VSettings c)
  | OpReadFileAt basename offset =>
      r <- ReadFileAt basename offset ;; ret (VReaderAt r)
  | OpReadFile basename => r <- ReadFile basename ;; ret (VReader r)
  | OpWriteFile basename content => WriteFile basename content ;;; ret VNone
  | OpListFiles patternSuffix =>
      names <- ListFiles patternSuffix ;; ret (VNames names)
  | OpDelete basename => Delete basename ;;; ret VNone
  | OpSize basename => n <- Size basename ;; ret (VSize n)
  | OpClose => Close ;;; ret VNone
  end.

(** The calls one after the other, each on the state the one before left,
    whatever the one before returned (a caller that goes on after an error,
    or after it recovered from the panic of [ReadFileAt]). *)
Fixpoint run_ops (ops : list Op) (st : @Store ExternalIODirConfig ClusterSettings)
  : list (res Value) * Store :=
  match ops with
  | [] => ([], st)
  | op :: ops' =>
      let '(r, st') := run_op op st in
      let '(rs, st'') := run_ops ops' st' in
      (r :: rs, st'')
  end.

(** The row streams a sequence of calls opens on an adapter: one for each
    read with the empty basename. *)
Definition streams_opened (s : @workloadStorage ExternalIODirConfig ClusterSettings)
    (ops : list Op) : list Call :=
  flat_map (fun op =>
              match op with
              | OpReadFile EmptyString =>
                  [CallNewCSVRowsReader (Workload.Table_Name (table s))
                     (BatchBegin (conf s)) (BatchEnd (conf s))]
              | _ => []
              end) ops.

End Requests.

(** ** A registry, a generator and requests to run the code on *)

Definition accounts : Workload.Table :=
  Workload.mkTable "accounts" (Some (fun _ => ["account"; "0"])) 1000.

Definition unnamed : Workload.Table :=
  Workload.mkTable "" (Some (fun _ => ["row"])) 10.

Definition bank_configured : Workload.Generator :=
  Workload.mkGenerator [accounts; unnamed] None.

(** The generator "bank": its flag set knows the flag [--rows] only. *)
Definition bank : Workload.Generator :=
  Workload.mkGenerator [accounts; unnamed]
    (Some (fun flags =>
             if forallb (fun f => GoStrings.HasPrefix f "--rows=") flags
             then inr bank_configured
             else inl (Errorf "unknown flag"))).

Definition bank_meta : Workload.Meta :=
  Workload.mkMeta "bank" "1.0.0" (fun _ => bank).

Definition world0 : World :=
  mkWorld {[ "bank" := bank_meta ]} ∅ [].

Definition args0 : @ExternalStorageContext unit unit :=
  mkExternalStorageContext tt tt.

Definition request (format version table : string) : ExternalStorage :=
  mkExternalStorage ExternalStorageProvider_Workload
    (Some (mkExternalStorage_Workload format "bank" version table [] 0 10)).

Definition adapter0 : @workloadStorage unit unit :=
  mkWorkloadStorage
    (mkExternalStorage_Workload "csv" "bank" "1.0.0" "accounts" [] 0 10)
    tt bank accounts tt.

Definition query (kvs : list (string * list string)) : Url.Values :=
  list_to_map kvs.

Definition uri_bank : Url.URL :=
  Url.mkURL "/csv/bank/accounts"
    (query [("version", ["1.0.0"]); ("row-start", ["0"]); ("row-end", ["10"])]).

Definition uri_bad_row_start : Url.URL :=
  Url.mkURL "/csv/bank/accounts"
    (query [("version", ["1.0.0"]); ("row-start", ["abc"])]).

Definition uri_empty_segment : Url.URL :=
  Url.mkURL "/csv//accounts" (query [("version", ["1.0.0"])]).

Definition uri_json : Url.URL :=
  Url.mkURL "/json/bank/accounts" (query [("version", ["1.0.0"])]).

Definition uri_empty_row_start : Url.URL :=
  Url.mkURL "/csv/bank/accounts"
    (query [("version", ["1.0.0"]); ("row-start", [""])]).

Definition uri_two_segments : Url.URL :=
  Url.mkURL "/csv/bank" (query [("seed", ["1"])]).

Definition uri_flags : Url.URL :=
  Url.mkURL "/csv/bank/accounts"
    (query [("version", ["1.0.0"]); ("rows", ["5"; "7"]); ("row-end", ["3"])]).

Definition uri_no_version : Url.URL :=
  Url.mkURL "/csv/bank/accounts" (query [("seed", ["1"])]).

(** * Theorems *)

(** ** The adapter *)

Section AdapterFacts.

Context {ExternalIODirConfig ClusterSettings : Type}.

Abbreviation storage := (@workloadStorage ExternalIODirConfig ClusterSettings).
Abbreviation context := (@ExternalStorageContext ExternalIODirConfig ClusterSettings).

(** Counting the use of the provider touches neither the registry nor the
    call log. *)
Lemma telemetry_Count_frame (feature : string) (w : World) :
  registered (telemetry_Count feature w).2 = registered w /\
  calls (telemetry_Count feature w).2 = calls w.
Proof. split; reflexivity. Qed.

Lemma select_table_frame (tables : list Workload.Table) (s : storage) :
  conf (select_table tables s) = conf s /\
  gen (select_table tables s) = gen s /\
  ioConf (select_table tables s) = ioConf s /\
  settings (select_table tables s) = settings s.
Proof.
  induction tables as [|t tables IH]; simpl; [done|].
  case_decide; [done|apply IH].
Qed.

(** The loop stores a table of the requested name when the generator has
    one. *)
Lemma select_table_found (tables : list Workload.Table) (s : storage) :
  (exists t, t ∈ tables /\ Workload.Table_Name t = Table (conf s)) ->
  Workload.Table_Name (table (select_table tables s)) = Table (conf s).
Proof.
  induction tables as [|t tables IH]; intros (t' & Hin & Hname).
  - by apply elem_of_nil in Hin.
  - simpl. case_decide as Ht; [done|].
    apply IH. exists t'. split; [|done].
    apply elem_of_cons in Hin as [->|Hin]; [contradiction|done].
Qed.

(** It leaves the adapter as it was when no table has that name. *)
Lemma select_table_missing (tables : list Workload.Table) (s : storage) :
  (forall t, t ∈ tables -> Workload.Table_Name t <> Table (conf s)) ->
  select_table tables s = s.
Proof.
  induction tables as [|t tables IH]; intros Hno; simpl; [done|].
  case_decide as Ht.
  - exfalso. apply (Hno t); [left|done].
  - apply IH. intros t' Hin. apply Hno. by right.
Qed.

Lemma UnknownTable_not_VersionMismatch (table generator : string) :
  ~ is_VersionMismatch (UnknownTable table generator).
Proof. intros (n & e & a & H). discriminate H. Qed.

Lemma InvalidFlags_not_VersionMismatch (cause : error) (flags : list string) :
  ~ is_VersionMismatch (InvalidFlags cause flags).
Proof. intros (n & e & a & H). discriminate H. Qed.

Lemma UnsupportedFormat_not_VersionMismatch (format : string) :
  ~ is_VersionMismatch (UnsupportedFormat format).
Proof. intros (n & e & a & H). discriminate H. Qed.

(** What the constructor answers once the format is accepted and the
    registry knows the generator. *)
Lemma makeWorkloadStorage_resolved (args : context)
    (provider : ExternalStorageProvider) (c : ExternalStorage_Workload)
    (w : World) (meta : Workload.Meta) :
  GoStrings.ToLower (Format c) = "csv" ->
  registered w !! Generator c = Some meta ->
  (makeWorkloadStorage args (mkExternalStorage provider (Some c)) w).1 =
    if decide (Workload.Meta_Version meta <> Version c)
    then Err (VersionMismatch (Workload.Meta_Name meta) (Version c)
                              (Workload.Meta_Version meta))
    else
      match configured (Workload.Meta_New meta tt) (Flags c) with
      | inl err => Err (InvalidFlags err (Flags c))
      | inr g =>
          let s := select_table (Workload.Tables g)
                     (mkWorkloadStorage c (IOConf args) g Workload.Table_zero
                                        (Settings args)) in
          if decide (Workload.Table_Name (table s) = "")
          then Err (UnknownTable (Table c) (Workload.Meta_Name meta))
          else Ok s
      end.
Proof.
  intros Hfmt Hreg.
  unfold makeWorkloadStorage, bind, telemetry_Count, workload_Get; simpl.
  case_decide as Hf; [contradiction|].
  cbn [registered]. rewrite Hreg. case_decide as Hv; [reflexivity|].
  unfold meta_New, configured, Flags_Parse, gen_Tables, ret, fail; simpl.
  destruct (Workload.Flagser (Workload.Meta_New meta ())) as [parse|]; simpl.
  - destruct (parse (Flags c)) as [err|g]; simpl; [reflexivity|].
    case_decide; reflexivity.
  - case_decide; reflexivity.
Qed.

(** A format other than csv is refused before the registry is asked. *)
Lemma makeWorkloadStorage_bad_format (args : context)
    (provider : ExternalStorageProvider) (c : ExternalStorage_Workload)
    (w : World) :
  GoStrings.ToLower (Format c) <> "csv" ->
  makeWorkloadStorage args (mkExternalStorage provider (Some c)) w =
    (Err (UnsupportedFormat (Format c)),
     (telemetry_Count "external-io.workload" w).2).
Proof.
  intros Hfmt. unfold makeWorkloadStorage, bind; simpl.
  case_decide; [reflexivity|contradiction].
Qed.

(** C1 (amended): for a request whose format is csv in any letter case
    and whose generator the registry knows, construction fails with a
    version mismatch exactly when the registry's version string differs
    from the requested one, and the error then carries the requested and
    the registered version; when the two are equal, the flags parse and the
    generator has a table of the requested, non-empty name, construction
    succeeds with that table. *)
Theorem C1_version_check (args : context) (provider : ExternalStorageProvider)
    (c : ExternalStorage_Workload) (w : World) (meta : Workload.Meta) :
  GoStrings.ToLower (Format c) = "csv" ->
  registered w !! Generator c = Some meta ->
  let r := (makeWorkloadStorage args (mkExternalStorage provider (Some c)) w).1 in
  ((exists e, r = Err e /\ is_VersionMismatch e) <->
   Workload.Meta_Version meta <> Version c) /\
  (Workload.Meta_Version meta <> Version c ->
   r = Err (VersionMismatch (Workload.Meta_Name meta) (Version c)
                            (Workload.Meta_Version meta))) /\
  (Workload.Meta_Version meta = Version c ->
   forall g, configured (Workload.Meta_New meta tt) (Flags c) = inr g ->
   Table c <> "" ->
   (exists t, t ∈ Workload.Tables g /\ Workload.Table_Name t = Table c) ->
   exists s, r = Ok s /\ conf s = c /\ gen s = g /\
             Workload.Table_Name (table s) = Table c).
Proof.
  intros Hfmt Hreg r. subst r.
  rewrite (makeWorkloadStorage_resolved args provider c w meta Hfmt Hreg).
  case_decide as Hv.
  - split; [|split].
    + split; [done|]. intros _. eexists. split; [reflexivity|].
      by exists (Workload.Meta_Name meta), (Version c), (Workload.Meta_Version meta).
    + done.
    + intros Heq. contradiction.
  - assert (Heq : Workload.Meta_Version meta = Version c)
      by (destruct (decide (Workload.Meta_Version meta = Version c)); [done|contradiction]).
    split; [|split].
    + split; [|contradiction]. intros (e & He & Hm). exfalso.
      destruct (configured (Workload.Meta_New meta ()) (Flags c)) as [err|g].
      * injection He as <-. by apply InvalidFlags_not_VersionMismatch in Hm.
      * simpl in He. case_decide; [|discriminate He].
        injection He as <-. by apply UnknownTable_not_VersionMismatch in Hm.
    + contradiction.
    + intros _ g Hg Hne Hex. rewrite Hg. simpl.
      set (s0 := mkWorkloadStorage c (IOConf args) g Workload.Table_zero
                                   (Settings args)).
      pose proof (select_table_found (Workload.Tables g) s0 Hex) as Hname.
      destruct (select_table_frame (Workload.Tables g) s0) as (Hc & Hg' & _).
      simpl in Hname. case_decide as He.
      * rewrite Hname in He. contradiction.
      * eexists. split; [reflexivity|]. by rewrite Hc, Hg', Hname.
Qed.

(** C8: on any adapter, and so on every adapter that construction
    returned, [ReadFile] with a basename that is not empty fails with the
    basename error, whatever the configuration, opens no row stream and
    leaves adapter and world as they were; with the empty basename it
    returns the row stream over the bound table and row range. *)
Theorem C8_unexpected_basename (s : storage) (w : World) (basename : string) :
  basename <> "" ->
  ReadFile basename (s, w) = (Err UnexpectedBasename, (s, w)) /\
  ReadFile "" (s, w) =
    (Ok (Workload.mkCSVRowsReader (table s) (BatchBegin (conf s))
                                  (BatchEnd (conf s))),
     (s, log (CallNewCSVRowsReader (Workload.Table_Name (table s))
                                   (BatchBegin (conf s)) (BatchEnd (conf s)))
             w)).
Proof.
  intros Hne. split.
  - unfold ReadFile, bind, self; simpl. case_decide; [reflexivity|contradiction].
  - reflexivity.
Qed.

(** C9: on any adapter, and so on every adapter that construction
    returned, a read at a byte offset panics with "unimplemented"; writing,
    listing, deleting and sizing each return the unsupported-operation
    error of their own operation, the four errors being pairwise distinct;
    and each of the five calls leaves the adapter and the world as they
    were. *)
Theorem C9_unsupported_operations (s : storage) (w : World)
    (basename content : string) (offset : Z) :
  ReadFileAt basename offset (s, w) = (Panic "unimplemented", (s, w)) /\
  WriteFile basename content (s, w) =
    (Err (OperationNotSupported "writes"), (s, w)) /\
  ListFiles basename (s, w) =
    (Err (OperationNotSupported "listing files"), (s, w)) /\
  Delete basename (s, w) = (Err (OperationNotSupported "deletes"), (s, w)) /\
  Size basename (s, w) = (Err (OperationNotSupported "sizing"), (s, w)) /\
  NoDup [WritesNotSupported; ListingNotSupported; DeletesNotSupported;
         SizingNotSupported].
Proof.
  repeat split.
  repeat (apply NoDup_cons; split;
          [rewrite ?elem_of_cons, elem_of_nil; intros H;
           repeat (destruct H as [H|H]; [discriminate H|]); done|]).
  apply NoDup_nil_2.
Qed.

(** C10: a destination without a workload configuration is refused with
    the missing-info error; no adapter is returned, and neither the
    registry nor any other part of package workload has been called. *)
Theorem C10_missing_info (args : context) (provider : ExternalStorageProvider)
    (w : World) :
  let r := makeWorkloadStorage args (mkExternalStorage provider None) w in
  r.1 = Err InfoMissing /\
  (forall s, r.1 <> Ok s) /\
  calls r.2 = calls w /\
  registered r.2 = registered w.
Proof.
  intros r. subst r. unfold makeWorkloadStorage, bind; simpl.
  split; [reflexivity|]. split; [|split; reflexivity].
  intros s H. discriminate H.
Qed.

End AdapterFacts.

(** ** The query *)

Lemma Get_Del_ne (q : Url.Values) (k k' : string) :
  k <> k' -> Url.Get (Url.Del q k) k' = Url.Get q k'.
Proof. intros Hne. unfold Url.Get, Url.Del. by rewrite lookup_delete_ne. Qed.

Lemma Get_absent (q : Url.Values) (k : string) :
  q !! k = None -> Url.Get q k = "".
Proof. intros H. unfold Url.Get. by rewrite H. Qed.

Lemma Get_first (q : Url.Values) (k v : string) (vs : list string) :
  q !! k = Some (v :: vs) -> Url.Get q k = v.
Proof. intros H. unfold Url.Get. by rewrite H. Qed.

Lemma Get_strip_ne (q : Url.Values) (k k' : string) :
  k <> k' -> Url.Get (strip q k) k' = Url.Get q k'.
Proof. intros Hne. unfold strip. case_decide; [by apply Get_Del_ne|done]. Qed.

Lemma strip_read (q : Url.Values) (k : string) :
  (0 < String.length (Url.Get q k))%nat -> strip q k = Url.Del q k.
Proof. intros H. unfold strip. by case_decide. Qed.

Lemma strip_skipped (q : Url.Values) (k : string) :
  ~ (0 < String.length (Url.Get q k))%nat -> strip q k = q.
Proof. intros H. unfold strip. by case_decide. Qed.

Lemma length_pos_nonempty (s : string) :
  (0 < String.length s)%nat <-> s <> "".
Proof. destruct s; simpl; split; intros H; try done; lia. Qed.

(** ** The parser in normal form *)

Section ParserFacts.

Variable range : Url.Values -> list (string * list string).

(** With three segments and a version, the parser reads the two row
    bounds in turn and, when both are read, returns the configuration. *)
Lemma ParseWorkloadConfig_segments (uri : Url.URL) (a b c : string) :
  segments (Url.Path uri) = [a; b; c] ->
  Url.Query uri !! "version" <> None ->
  ParseWorkloadConfig range uri =
    let q := Url.Query uri in
    match row_bound q "row-start" with
    | (_, Some err) => (no_config, Some (NumErr err))
    | (batchBegin, None) =>
        match row_bound q "row-end" with
        | (_, Some err) => (no_config, Some (NumErr err))
        | (batchEnd, None) =>
            (mkExternalStorage ExternalStorageProvider_Workload
               (Some (mkExternalStorage_Workload a b (Url.Get q "version") c
                        (append_flags range [] (remaining q))
                        batchBegin batchEnd)),
             None)
        end
    end.
Proof.
  intros Hseg Hver. unfold ParseWorkloadConfig.
  change (GoStrings.Split (GoStrings.Trim (Url.Path uri) "/") "/")
    with (segments (Url.Path uri)).
  rewrite Hseg. case_decide as Hv; [contradiction|].
  cbv zeta. unfold row_bound, remaining.
  rewrite !(Get_Del_ne _ "version") by done.
  destruct (decide (0 < String.length (Url.Get (Url.Query uri) "row-start"))%nat)
    as [Hs|Hs].
  - rewrite (strip_read _ "row-start")
      by (by rewrite (Get_Del_ne _ "version")).
    destruct (Strconv.ParseInt (Url.Get (Url.Query uri) "row-start") 10 64)
      as [n [err|]]; [reflexivity|].
    rewrite (Get_Del_ne _ "row-start" "row-end") by done.
    rewrite (Get_Del_ne _ "version") by done.
    destruct (decide (0 < String.length (Url.Get (Url.Query uri) "row-end"))%nat)
      as [He|He].
    + rewrite (strip_read _ "row-end")
        by (by rewrite (Get_Del_ne _ "row-start"), (Get_Del_ne _ "version")).
      destruct (Strconv.ParseInt (Url.Get (Url.Query uri) "row-end") 10 64)
        as [m [err|]]; reflexivity.
    + rewrite (strip_skipped _ "row-end")
        by (by rewrite (Get_Del_ne _ "row-start"), (Get_Del_ne _ "version")).
      reflexivity.
  - rewrite (strip_skipped _ "row-start")
      by (by rewrite (Get_Del_ne _ "version")).
    rewrite (Get_Del_ne _ "version") by done.
    destruct (decide (0 < String.length (Url.Get (Url.Query uri) "row-end"))%nat)
      as [He|He].
    + rewrite (strip_read _ "row-end") by (by rewrite (Get_Del_ne _ "version")).
      destruct (Strconv.ParseInt (Url.Get (Url.Query uri) "row-end") 10 64)
        as [m [err|]]; reflexivity.
    + rewrite (strip_skipped _ "row-end")
        by (by rewrite (Get_Del_ne _ "version")).
      reflexivity.
Qed.

(** Any other number of segments is a malformed path. *)
Lemma ParseWorkloadConfig_malformed (uri : Url.URL) :
  List.length (segments (Url.Path uri)) <> 3%nat ->
  ParseWorkloadConfig range uri =
    (no_config, Some (MalformedPath (Url.Path uri))).
Proof.
  intros Hlen. unfold ParseWorkloadConfig.
  change (GoStrings.Split (GoStrings.Trim (Url.Path uri) "/") "/")
    with (segments (Url.Path uri)).
  destruct (segments (Url.Path uri)) as [|a [|b [|c [|d l]]]];
    try reflexivity.
  by contradict Hlen.
Qed.

(** Three segments without a version. *)
Lemma ParseWorkloadConfig_no_version (uri : Url.URL) (a b c : string) :
  segments (Url.Path uri) = [a; b; c] ->
  Url.Query uri !! "version" = None ->
  ParseWorkloadConfig range uri = (no_config, Some MissingVersion).
Proof.
  intros Hseg Hver. unfold ParseWorkloadConfig.
  change (GoStrings.Split (GoStrings.Trim (Url.Path uri) "/") "/")
    with (segments (Url.Path uri)).
  rewrite Hseg. case_decide; [reflexivity|contradiction].
Qed.

End ParserFacts.

(** ** Trimming and splitting a path *)

Lemma last_byte_cons (c : ascii) (s : string) :
  s <> "" -> last_byte (String c s) = last_byte s.
Proof. destruct s; [done|reflexivity]. Qed.

Lemma last_byte_Some_nonempty (s : string) (c : ascii) :
  last_byte s = Some c -> s <> "".
Proof. by destruct s. Qed.

Lemma TrimRight_last (s cutset : string) (c : ascii) :
  last_byte (GoStrings.TrimRight s cutset) = Some c ->
  GoStrings.in_cutset c cutset = false.
Proof.
  induction s as [|a s IH]; simpl; [done|].
  destruct (GoStrings.TrimRight s cutset) as [|b r] eqn:Hr.
  - destruct (GoStrings.in_cutset a cutset) eqn:Ha; simpl; [done|].
    by intros [= <-].
  - rewrite last_byte_cons by done. exact IH.
Qed.

Lemma TrimLeft_first (s cutset : string) (c : ascii) :
  first_byte (GoStrings.TrimLeft s cutset) = Some c ->
  GoStrings.in_cutset c cutset = false.
Proof.
  induction s as [|a s IH]; simpl; [done|].
  destruct (GoStrings.in_cutset a cutset) eqn:Ha; [exact IH|].
  simpl. by intros [= <-].
Qed.

Lemma TrimLeft_last (s cutset : string) (c : ascii) :
  last_byte (GoStrings.TrimLeft s cutset) = Some c -> last_byte s = Some c.
Proof.
  induction s as [|a s IH]; [done|].
  cbn [GoStrings.TrimLeft].
  destruct (GoStrings.in_cutset a cutset); [|done].
  intros H. specialize (IH H).
  rewrite last_byte_cons; [done|]. by eapply last_byte_Some_nonempty.
Qed.

(** A trimmed string neither starts nor ends with a byte of the cutset. *)
Lemma Trim_ends (s cutset : string) (c : ascii) :
  first_byte (GoStrings.Trim s cutset) = Some c \/
  last_byte (GoStrings.Trim s cutset) = Some c ->
  GoStrings.in_cutset c cutset = false.
Proof.
  unfold GoStrings.Trim. intros [H|H].
  - by eapply TrimLeft_first.
  - apply TrimLeft_last in H. by eapply TrimRight_last.
Qed.

Lemma HasPrefix_empty (s : string) : GoStrings.HasPrefix s "" = true.
Proof. by destruct s. Qed.

Lemma genSplit_slash_cons (c : ascii) (s : string) :
  GoStrings.genSplit (String c s) "/" 0 =
    if Ascii.eqb c "/" then "" :: GoStrings.genSplit s "/" 0
    else match GoStrings.genSplit s "/" 0 with
         | seg :: rest => String c seg :: rest
         | [] => [String c ""]
         end.
Proof.
  cbn [GoStrings.genSplit GoStrings.HasPrefix String.length Nat.pred].
  by rewrite HasPrefix_empty, andb_true_r.
Qed.

Lemma genSplit_slash_nonempty (s : string) : GoStrings.genSplit s "/" 0 <> [].
Proof.
  destruct s as [|c s]; [done|]. rewrite genSplit_slash_cons.
  destruct (Ascii.eqb c "/"); [done|].
  by destruct (GoStrings.genSplit s "/" 0).
Qed.

(** The first segment is empty only when the string is empty or starts
    with the separator. *)
Lemma genSplit_slash_head (s : string) (rest : list string) :
  GoStrings.genSplit s "/" 0 = "" :: rest ->
  s = "" \/ first_byte s = Some "/"%char.
Proof.
  destruct s as [|c s]; [by left|]. rewrite genSplit_slash_cons.
  destruct (Ascii.eqb c "/") eqn:Hc.
  - apply Ascii.eqb_eq in Hc as ->. by right.
  - by destruct (GoStrings.genSplit s "/" 0).
Qed.

(** The last segment is empty only when the string is empty or ends with
    the separator. *)
Lemma genSplit_slash_last (s : string) :
  last (GoStrings.genSplit s "/" 0) = Some "" ->
  s = "" \/ last_byte s = Some "/"%char.
Proof.
  induction s as [|c s IH]; [by left|]. rewrite genSplit_slash_cons.
  right. destruct (Ascii.eqb c "/") eqn:Hc.
  - apply Ascii.eqb_eq in Hc as ->.
    pose proof (genSplit_slash_nonempty s) as Hne.
    destruct (GoStrings.genSplit s "/" 0) as [|x l] eqn:Hs; [done|].
    rewrite last_cons_cons in H. destruct (IH H) as [->|Hl]; [done|].
    rewrite last_byte_cons; [done|]. by eapply last_byte_Some_nonempty.
  - destruct (GoStrings.genSplit s "/" 0) as [|x l] eqn:Hs; [done|].
    destruct l as [|y l]; [done|].
    rewrite last_cons_cons in H.
    assert (Hx : last (x :: y :: l) = Some "") by (by rewrite last_cons_cons).
    destruct (IH Hx) as [->|Hl]; [done|].
    rewrite last_byte_cons; [done|]. by eapply last_byte_Some_nonempty.
Qed.

(** Of three segments of a path, the first and the last are not empty. *)
Lemma segments_ends (path a b c : string) :
  segments path = [a; b; c] -> a <> "" /\ c <> "".
Proof.
  unfold segments, GoStrings.Split. intros Hseg. split; intros ->.
  - destruct (genSplit_slash_head _ _ Hseg) as [He|Hf].
    + rewrite He in Hseg. discriminate Hseg.
    + by apply (fun H => Trim_ends _ "/" "/"%char (or_introl H)) in Hf.
  - assert (Hl : last (GoStrings.genSplit (GoStrings.Trim path "/") "/" 0)
                 = Some "") by (by rewrite Hseg).
    destruct (genSplit_slash_last _ Hl) as [He|Hf].
    + rewrite He in Hseg. discriminate Hseg.
    + by apply (fun H => Trim_ends _ "/" "/"%char (or_intror H)) in Hf.
Qed.

(** ** Base-10 64-bit integers *)

Lemma digit_decimal (c : ascii) :
  match Strconv.digit c with
  | Some d =>
      0 <= d /\
      if d >=? 10 then is_digit c = false
      else is_digit c = true /\ d = byte_val c - 48
  | None => is_digit c = false
  end.
Proof.
  destruct c as [[] [] [] [] [] [] [] []]; vm_compute; intuition congruence.
Qed.

Lemma decimal_value_ge (s : string) (acc v : Z) :
  0 <= acc -> decimal_value acc s = Some v -> acc <= v.
Proof.
  revert acc. induction s as [|c s IH]; intros acc Hacc; simpl.
  - intros [= <-]. lia.
  - destruct (is_digit c) eqn:Hc; [|done]. intros Hv.
    apply IH in Hv.
    + unfold is_digit in Hc. lia.
    + unfold is_digit in Hc. lia.
Qed.

(** The loop of [ParseUint] in base 10 over 64 bits: it returns the number
    the digits denote when that number fits, and an error otherwise, the
    range error coming with the largest value. *)
Lemma parseUint_loop_decimal (s : string) (n : Z) :
  0 <= n <= Strconv.maxUint64 ->
  let r := Strconv.parseUint_loop s 10 (Strconv.maxUint64 / 10 + 1)
                                  (2 ^ 64 - 1) n in
  match decimal_value n s with
  | Some v =>
      if v <=? Strconv.maxUint64 then r = (v, None)
      else r = (2 ^ 64 - 1, Some Strconv.ErrRange)
  | None =>
      r = (0, Some Strconv.ErrSyntax) \/
      r = (2 ^ 64 - 1, Some Strconv.ErrRange)
  end.
Proof.
  unfold Strconv.maxUint64.
  change (2 ^ 64) with 18446744073709551616.
  change ((18446744073709551616 - 1) / 10 + 1) with 1844674407370955162.
  revert n. induction s as [|c s IH]; intros n Hn; cbv zeta.
  - simpl. destruct (n <=? _) eqn:Hle; [reflexivity|lia].
  - cbn [decimal_value Strconv.parseUint_loop].
    pose proof (digit_decimal c) as Hd.
    destruct (Strconv.digit c) as [d|]; [|rewrite Hd; by left].
    destruct Hd as [Hd0 Hd]. destruct (d >=? 10) eqn:Hd10.
    { rewrite Hd. by left. }
    destruct Hd as [-> ->].
    set (d := byte_val c - 48) in *.
    assert (Hd9 : d <= 9) by lia.
    change (2 ^ 64) with 18446744073709551616.
    destruct (n >=? 1844674407370955162) eqn:Hcut.
    + destruct (decimal_value (n * 10 + d) s) as [v|] eqn:Hv; [|by right].
      apply decimal_value_ge in Hv; [|lia].
      destruct (v <=? _) eqn:Hle; [lia|reflexivity].
    + rewrite (Z.mod_small (n * 10)) by lia.
      destruct (decide (n * 10 + d < 18446744073709551616)) as [Hfit|Hover].
      * rewrite (Z.mod_small (n * 10 + d)) by lia.
        replace ((n * 10 + d <? n * 10) || (n * 10 + d >? 18446744073709551616 - 1))
          with false by (symmetry; apply orb_false_iff; lia).
        apply (IH (n * 10 + d)). lia.
      * assert (Hw : (n * 10 + d) mod 18446744073709551616
                     = n * 10 + d - 18446744073709551616).
        { symmetry. apply (Z.mod_unique _ _ 1); lia. }
        rewrite Hw.
        replace ((n * 10 + d - 18446744073709551616 <? n * 10)
                 || (n * 10 + d - 18446744073709551616 >? 18446744073709551616 - 1))
          with true by (symmetry; apply orb_true_iff; lia).
        destruct (decimal_value (n * 10 + d) s) as [v|] eqn:Hv; [|by right].
        apply decimal_value_ge in Hv; [|lia].
        destruct (v <=? _) eqn:Hle; [lia|reflexivity].
Qed.

Lemma ParseUint_decimal (t : string) :
  match (if decide (t = "") then None else decimal_value 0 t) with
  | Some v =>
      0 <= v /\
      if v <=? 2 ^ 64 - 1 then Strconv.ParseUint t 10 64 = (v, None)
      else Strconv.ParseUint t 10 64 = (2 ^ 64 - 1, Some Strconv.ErrRange)
  | None =>
      Strconv.ParseUint t 10 64 = (0, Some Strconv.ErrSyntax) \/
      Strconv.ParseUint t 10 64 = (2 ^ 64 - 1, Some Strconv.ErrRange)
  end.
Proof.
  unfold Strconv.ParseUint. case_decide as Ht; [by left|].
  cbn [negb andb orb Z.leb Z.ltb Z.gtb Z.eqb Z.compare Pos.compare
       Pos.compare_cont].
  assert (H0 : 0 <= 0 <= Strconv.maxUint64) by (unfold Strconv.maxUint64; lia).
  pose proof (parseUint_loop_decimal t 0 H0) as Hl. cbv zeta in Hl.
  destruct (decimal_value 0 t) as [v|] eqn:Hv; [|exact Hl].
  split; [by eapply decimal_value_ge|exact Hl].
Qed.

(** What [ParseInt] makes of the result of [ParseUint], by the sign. *)
Lemma ParseInt_finish (neg : bool) (t s0 : string) :
  let finish :=
    match Strconv.ParseUint t 10 64 with
    | (_, Some Strconv.ErrSyntax) =>
        (0, Some (Strconv.mkNumError "ParseInt" s0 Strconv.ErrSyntax))
    | (_, Some Strconv.ErrBase) =>
        (0, Some (Strconv.mkNumError "ParseInt" s0 Strconv.ErrBase))
    | (_, Some Strconv.ErrBitSize) =>
        (0, Some (Strconv.mkNumError "ParseInt" s0 Strconv.ErrBitSize))
    | (un, _) =>
        if negb neg && (un >=? 2 ^ 63)
        then (2 ^ 63 - 1, Some (Strconv.mkNumError "ParseInt" s0 Strconv.ErrRange))
        else if neg && (un >? 2 ^ 63)
        then (- 2 ^ 63, Some (Strconv.mkNumError "ParseInt" s0 Strconv.ErrRange))
        else (if neg then - un else un, None)
    end in
  match (if decide (t = "") then None else decimal_value 0 t) with
  | Some v =>
      let n := if neg then - v else v in
      if (- 2 ^ 63 <=? n) && (n <? 2 ^ 63) then finish = (n, None)
      else finish.2 <> None
  | None => finish.2 <> None
  end.
Proof.
  cbv zeta. pose proof (ParseUint_decimal t) as Hu.
  change (2 ^ 63) with 9223372036854775808.
  change (2 ^ 64 - 1) with 18446744073709551615 in Hu.
  destruct (if decide (t = "") then None else decimal_value 0 t) as [v|].
  - destruct Hu as [Hv Hu].
    destruct (v <=? 18446744073709551615) eqn:Hle; rewrite Hu;
      destruct neg; cbn [negb andb];
      repeat match goal with
             | |- context [if ?b then _ else _] => destruct b eqn:?
             end;
      cbn [snd]; try done; lia.
  - destruct Hu as [Hu|Hu]; rewrite Hu; [done|]. by destruct neg.
Qed.

(** [ParseInt] in base 10 over 64 bits returns the integer a string
    denotes when it denotes one of 64 bits, and an error otherwise. *)
Lemma ParseInt_int64_decimal (s : string) :
  match int64_decimal s with
  | Some n => Strconv.ParseInt s 10 64 = (n, None)
  | None => (Strconv.ParseInt s 10 64).2 <> None
  end.
Proof.
  unfold int64_decimal, decimal, Strconv.ParseInt.
  destruct s as [|c rest]; [done|].
  change (if 64 =? 0 then Strconv.IntSize else 64) with 64.
  change (2 ^ (64 - 1)) with (2 ^ 63).
  destruct (Ascii.eqb c "+") eqn:Hplus; [|destruct (Ascii.eqb c "-") eqn:Hminus].
  - pose proof (ParseInt_finish false rest (String c rest)) as H.
    cbv zeta in H.
    destruct (decide (rest = "")); [exact H|].
    destruct (decimal_value 0 rest) as [v|]; [|exact H].
    destruct ((- 2 ^ 63 <=? v) && (v <? 2 ^ 63)); exact H.
  - pose proof (ParseInt_finish true rest (String c rest)) as H.
    cbv zeta in H.
    destruct (decide (rest = "")); [exact H|].
    destruct (decimal_value 0 rest) as [v|]; [|exact H]. simpl.
    destruct ((- 2 ^ 63 <=? - v) && (- v <? 2 ^ 63)); exact H.
  - pose proof (ParseInt_finish false (String c rest) (String c rest)) as H.
    cbv zeta in H.
    destruct (decide (String c rest = "")) as [[=]|_].
    destruct (decimal_value 0 (String c rest)) as [v|]; [|exact H].
    destruct ((- 2 ^ 63 <=? v) && (v <? 2 ^ 63)); exact H.
Qed.

Lemma ParseInt_reads_int64 (s : string) (n : Z) :
  Strconv.ParseInt s 10 64 = (n, None) <-> int64_decimal s = Some n.
Proof.
  pose proof (ParseInt_int64_decimal s) as H.
  destruct (int64_decimal s) as [m|].
  - rewrite H. split; intros [= ->]; reflexivity.
  - split; [|done]. intros Hp. rewrite Hp in H. by destruct H.
Qed.

Lemma ParseInt_ok_iff (s : string) :
  (Strconv.ParseInt s 10 64).2 = None <-> is_Some (int64_decimal s).
Proof.
  pose proof (ParseInt_int64_decimal s) as H.
  destruct (int64_decimal s) as [n|].
  - rewrite H. by split.
  - split; [done|]. by intros [n [=]].
Qed.

Lemma ParseInt_error_iff (s : string) :
  (Strconv.ParseInt s 10 64).2 <> None <-> int64_decimal s = None.
Proof.
  rewrite ParseInt_ok_iff. destruct (int64_decimal s) as [n|].
  - split; [|done]. intros H. by destruct H.
  - split; [done|]. by intros _ [n [=]].
Qed.

Lemma ParseInt_value (s : string) (n : Z) :
  int64_decimal s = Some n -> (Strconv.ParseInt s 10 64).1 = n.
Proof. intros H. apply ParseInt_reads_int64 in H. by rewrite H. Qed.

(** [strconv.ParseInt(s, 10, 64)] refines the base-10 64-bit integers:
    it returns [n] without an error exactly when [s] is an optional sign
    and one digit or more that denote [n], from -2^63 to 2^63 - 1, and it
    returns an error exactly when [s] denotes no such integer. *)
Theorem ParseInt_refines_decimal (s : string) :
  (forall n, Strconv.ParseInt s 10 64 = (n, None) <-> int64_decimal s = Some n) /\
  ((Strconv.ParseInt s 10 64).2 <> None <-> int64_decimal s = None).
Proof.
  split; [intros n; apply ParseInt_reads_int64|apply ParseInt_error_iff].
Qed.

(** ** What the parser returns *)

Lemma row_bound_error (q : Url.Values) (k : string) (err : Strconv.NumError) :
  (row_bound q k).2 = Some err <->
  Url.Get q k <> "" /\ (Strconv.ParseInt (Url.Get q k) 10 64).2 = Some err.
Proof.
  unfold row_bound. case_decide as Hs.
  - apply length_pos_nonempty in Hs. by split; [|intros [_ ?]].
  - rewrite length_pos_nonempty in Hs. simpl.
    split; [done|]. intros [Hne _]. by destruct Hs.
Qed.

Lemma row_bound_value (q : Url.Values) (k : string) :
  (row_bound q k).1 =
    if decide (Url.Get q k = "") then 0
    else (Strconv.ParseInt (Url.Get q k) 10 64).1.
Proof.
  unfold row_bound. case_decide as Hs.
  - apply length_pos_nonempty in Hs. by case_decide.
  - rewrite length_pos_nonempty in Hs. case_decide; [done|].
    exfalso. by apply Hs.
Qed.

Lemma row_bound_read (q : Url.Values) (k : string) :
  Url.Get q k = "" \/ (Strconv.ParseInt (Url.Get q k) 10 64).2 = None ->
  (row_bound q k).2 = None.
Proof.
  intros H. destruct (row_bound q k).2 as [err|] eqn:He; [|done].
  apply row_bound_error in He as [Hne Herr]. destruct H; congruence.
Qed.

Lemma MalformedPath_not_UnsupportedFormat (path format : string) :
  MalformedPath path <> UnsupportedFormat format.
Proof. discriminate. Qed.

Lemma MissingVersion_not_UnsupportedFormat (format : string) :
  MissingVersion <> UnsupportedFormat format.
Proof. discriminate. Qed.

Lemma MalformedPath_not_MissingVersion (path : string) :
  MalformedPath path <> MissingVersion.
Proof. unfold MalformedPath, MissingVersion. simpl. discriminate. Qed.

Section ParserResults.

Variable range : Url.Values -> list (string * list string).

(** A successful parse had three segments, and its configuration holds
    them, the version and the two row bounds. *)
Lemma ParseWorkloadConfig_success (uri : Url.URL) (es : ExternalStorage) :
  ParseWorkloadConfig range uri = (es, None) ->
  exists a b c,
    segments (Url.Path uri) = [a; b; c] /\
    Url.Query uri !! "version" <> None /\
    es = mkExternalStorage ExternalStorageProvider_Workload
           (Some (mkExternalStorage_Workload a b
                    (Url.Get (Url.Query uri) "version") c
                    (append_flags range [] (remaining (Url.Query uri)))
                    (row_bound (Url.Query uri) "row-start").1
                    (row_bound (Url.Query uri) "row-end").1)).
Proof.
  intros H.
  destruct (decide (List.length (segments (Url.Path uri)) = 3%nat)) as [Hl|Hl].
  - destruct (segments (Url.Path uri)) as [|a [|b [|c [|d l]]]] eqn:Hseg;
      try discriminate Hl.
    exists a, b, c. split; [done|].
    destruct (decide (Url.Query uri !! "version" = None)) as [Hv|Hv].
    + rewrite (ParseWorkloadConfig_no_version range uri a b c Hseg Hv) in H.
      discriminate H.
    + split; [done|].
      rewrite (ParseWorkloadConfig_segments range uri a b c Hseg Hv) in H.
      cbv zeta in H.
      destruct (row_bound (Url.Query uri) "row-start") as [n [err|]];
        [discriminate H|].
      destruct (row_bound (Url.Query uri) "row-end") as [m [err|]];
        [discriminate H|].
      by injection H as <-.
  - rewrite (ParseWorkloadConfig_malformed range uri Hl) in H. discriminate H.
Qed.

(** The errors of the parser are the malformed path, the missing version
    and the error of a row bound. *)
Lemma ParseWorkloadConfig_errors (uri : Url.URL) (e : error) :
  (ParseWorkloadConfig range uri).2 = Some e ->
  e = MalformedPath (Url.Path uri) \/ e = MissingVersion \/ is_BadRowBound e.
Proof.
  intros H.
  destruct (decide (List.length (segments (Url.Path uri)) = 3%nat)) as [Hl|Hl].
  - destruct (segments (Url.Path uri)) as [|a [|b [|c [|d l]]]] eqn:Hseg;
      try discriminate Hl.
    destruct (decide (Url.Query uri !! "version" = None)) as [Hv|Hv].
    + rewrite (ParseWorkloadConfig_no_version range uri a b c Hseg Hv) in H.
      right; left. by injection H as <-.
    + rewrite (ParseWorkloadConfig_segments range uri a b c Hseg Hv) in H.
      cbv zeta in H. right; right.
      destruct (row_bound (Url.Query uri) "row-start") as [n [err|]].
      { injection H as <-. by exists err. }
      destruct (row_bound (Url.Query uri) "row-end") as [m [err|]].
      { injection H as <-. by exists err. }
      discriminate H.
  - rewrite (ParseWorkloadConfig_malformed range uri Hl) in H.
    left. by injection H as <-.
Qed.

(** With three segments, a version and row bounds that [ParseInt] reads,
    the parse succeeds and copies the segments and the version. *)
Lemma ParseWorkloadConfig_round_trip (uri : Url.URL) (a b c : string) :
  segments (Url.Path uri) = [a; b; c] ->
  is_Some (Url.Query uri !! "version") ->
  Url.Get (Url.Query uri) "row-start" = "" \/
    (Strconv.ParseInt (Url.Get (Url.Query uri) "row-start") 10 64).2 = None ->
  Url.Get (Url.Query uri) "row-end" = "" \/
    (Strconv.ParseInt (Url.Get (Url.Query uri) "row-end") 10 64).2 = None ->
  exists cfg,
    ParseWorkloadConfig range uri =
      (mkExternalStorage ExternalStorageProvider_Workload (Some cfg), None) /\
    Format cfg = a /\ Generator cfg = b /\ Table cfg = c /\
    Version cfg = Url.Get (Url.Query uri) "version" /\
    (forall v vs, Url.Query uri !! "version" = Some (v :: vs) ->
                  Version cfg = v).
Proof.
  intros Hseg [vs0 Hver] Hs He.
  assert (Hv : Url.Query uri !! "version" <> None) by congruence.
  rewrite (ParseWorkloadConfig_segments range uri a b c Hseg Hv). cbv zeta.
  apply row_bound_read in Hs, He.
  destruct (row_bound (Url.Query uri) "row-start") as [n o1].
  destruct (row_bound (Url.Query uri) "row-end") as [m o2].
  simpl in Hs, He. subst o1 o2.
  eexists. split; [reflexivity|]. simpl. repeat split.
  intros v vs Hq. by apply Get_first in Hq.
Qed.

(** C3 (amended): parsing succeeds only when the path has exactly three
    segments, of which the first and the third are then not empty (the
    second may be empty: the segments are not checked for emptiness); every
    path with another number of segments fails with the malformed-path
    error, which names the required shape and the path. *)
Theorem C3_path_shape (uri : Url.URL) :
  ((ParseWorkloadConfig range uri).2 = None ->
   exists a b c, segments (Url.Path uri) = [a; b; c] /\ a <> "" /\ c <> "") /\
  (List.length (segments (Url.Path uri)) <> 3%nat ->
   ParseWorkloadConfig range uri =
     (no_config,
      Some (Errorf ("path must be of the form /<format>/<generator>/<table>: "
                    +:+ Url.Path uri)))).
Proof.
  split.
  - intros H.
    destruct (ParseWorkloadConfig range uri) as [es o] eqn:Hp.
    simpl in H. subst o.
    apply ParseWorkloadConfig_success in Hp as (a & b & c & Hseg & _ & _).
    exists a, b, c. split; [done|]. by eapply segments_ends.
  - apply ParseWorkloadConfig_malformed.
Qed.

(** With three segments and a version, the parse fails on a row bound
    exactly when [ParseInt] refuses a first value that is not empty, and
    the bounds of a successful parse are what [ParseInt] returned. *)
Lemma ParseWorkloadConfig_row_bounds (uri : Url.URL) (a b c : string) :
  segments (Url.Path uri) = [a; b; c] ->
  Url.Query uri !! "version" <> None ->
  let q := Url.Query uri in
  let s := Url.Get q "row-start" in
  let e := Url.Get q "row-end" in
  let r := ParseWorkloadConfig range uri in
  ((exists err, r = (no_config, Some err) /\ is_BadRowBound err) <->
   (s <> "" /\ (Strconv.ParseInt s 10 64).2 <> None) \/
   (e <> "" /\ (Strconv.ParseInt e 10 64).2 <> None)) /\
  (forall cfg,
     r = (mkExternalStorage ExternalStorageProvider_Workload (Some cfg), None) ->
     BatchBegin cfg =
       (if decide (s = "") then 0 else (Strconv.ParseInt s 10 64).1) /\
     BatchEnd cfg =
       (if decide (e = "") then 0 else (Strconv.ParseInt e 10 64).1)) /\
  (q !! "row-start" = None -> s = "") /\
  (q !! "row-end" = None -> e = "").
Proof.
  intros Hseg Hv q s e r. subst r.
  rewrite (ParseWorkloadConfig_segments range uri a b c Hseg Hv). cbv zeta.
  fold q. pose proof (row_bound_value q "row-start") as Hbv.
  pose proof (row_bound_value q "row-end") as Hev.
  pose proof (row_bound_error q "row-start") as Hbe.
  pose proof (row_bound_error q "row-end") as Hee.
  fold s in Hbv, Hbe. fold e in Hev, Hee.
  destruct (row_bound q "row-start") as [n [err1|]];
    destruct (row_bound q "row-end") as [m [err2|]]; simpl in *.
  - split; [|split; [intros cfg [=]|split; apply Get_absent]].
    split; [intros _|intros _; exists (NumErr err1); split; [done|by eexists]].
    left. destruct (Hbe err1) as [[H1 H2] _]; [done|]. split; congruence.
  - split; [|split; [intros cfg [=]|split; apply Get_absent]].
    split; [intros _|intros _; exists (NumErr err1); split; [done|by eexists]].
    left. destruct (Hbe err1) as [[H1 H2] _]; [done|]. split; congruence.
  - split; [|split; [intros cfg [=]|split; apply Get_absent]].
    split; [intros _|intros _; exists (NumErr err2); split; [done|by eexists]].
    right. destruct (Hee err2) as [[H1 H2] _]; [done|]. split; congruence.
  - split; [|split; [|split; apply Get_absent]].
    + split; [intros (err & [=] & _)|].
      intros [[H1 H2]|[H1 H2]]; exfalso.
      * destruct (Strconv.ParseInt s 10 64).2 as [err|] eqn:Hp; [|done].
        discriminate (proj2 (Hbe err) (conj H1 eq_refl)).
      * destruct (Strconv.ParseInt e 10 64).2 as [err|] eqn:Hp; [|done].
        discriminate (proj2 (Hee err) (conj H1 eq_refl)).
    + intros cfg [= <-]. simpl. by rewrite Hbv, Hev.
Qed.

(** C2 (amended): when the path has exactly three segments, the query
    has the key version, and the first value of row-start and of row-end is
    either empty (or the key absent) or a base-10 64-bit integer, parsing
    succeeds; format, generator and table are the three segments unchanged
    and the version is the first value of the version parameter as it
    stands. *)
Theorem C2_parse_round_trip (uri : Url.URL) (a b c : string) :
  segments (Url.Path uri) = [a; b; c] ->
  is_Some (Url.Query uri !! "version") ->
  Url.Get (Url.Query uri) "row-start" = "" \/
    is_Some (int64_decimal (Url.Get (Url.Query uri) "row-start")) ->
  Url.Get (Url.Query uri) "row-end" = "" \/
    is_Some (int64_decimal (Url.Get (Url.Query uri) "row-end")) ->
  exists cfg,
    ParseWorkloadConfig range uri =
      (mkExternalStorage ExternalStorageProvider_Workload (Some cfg), None) /\
    Format cfg = a /\ Generator cfg = b /\ Table cfg = c /\
    Version cfg = Url.Get (Url.Query uri) "version" /\
    (forall v vs, Url.Query uri !! "version" = Some (v :: vs) ->
                  Version cfg = v).
Proof.
  intros Hseg Hver Hs He.
  apply ParseWorkloadConfig_round_trip; [done|done| |].
  - destruct Hs as [Hs|Hs]; [by left|right]. by apply ParseInt_ok_iff.
  - destruct He as [He|He]; [by left|right]. by apply ParseInt_ok_iff.
Qed.

(** C5 (amended): with three segments and a version, parsing fails with
    the error of a row bound exactly when the first value of row-start or
    of row-end is not empty and is no base-10 64-bit integer; when parsing
    succeeds, each bound is the integer its first value denotes, and 0
    when that value is empty; the value is empty when the key is absent. *)
Theorem C5_row_bounds (uri : Url.URL) (a b c : string) :
  segments (Url.Path uri) = [a; b; c] ->
  Url.Query uri !! "version" <> None ->
  let q := Url.Query uri in
  let s := Url.Get q "row-start" in
  let e := Url.Get q "row-end" in
  let r := ParseWorkloadConfig range uri in
  ((exists err, r = (no_config, Some err) /\ is_BadRowBound err) <->
   (s <> "" /\ int64_decimal s = None) \/
   (e <> "" /\ int64_decimal e = None)) /\
  (forall cfg,
     r = (mkExternalStorage ExternalStorageProvider_Workload (Some cfg), None) ->
     (forall n, int64_decimal s = Some n -> BatchBegin cfg = n) /\
     (s = "" -> BatchBegin cfg = 0) /\
     (forall n, int64_decimal e = Some n -> BatchEnd cfg = n) /\
     (e = "" -> BatchEnd cfg = 0)) /\
  (q !! "row-start" = None -> s = "") /\
  (q !! "row-end" = None -> e = "").
Proof.
  intros Hseg Hv q s e r.
  destruct (ParseWorkloadConfig_row_bounds uri a b c Hseg Hv)
    as (Hiff & Hval & Hs & He).
  fold q in Hiff, Hval, Hs, He. fold s in Hiff, Hval, Hs.
  fold e in Hiff, Hval, He. fold r in Hiff, Hval.
  split; [|split; [|by split]].
  - rewrite Hiff. by rewrite <- !ParseInt_error_iff.
  - intros cfg Hcfg. destruct (Hval cfg Hcfg) as [Hb Hend].
    clear Hval Hiff. rewrite Hb, Hend. clearbody s e. repeat split.
    + intros n Hn. destruct (decide (s = "")) as [->|_]; [done|].
      by apply ParseInt_value.
    + intros ->. by destruct (decide ("" = "")).
    + intros n Hn. destruct (decide (e = "")) as [->|_]; [done|].
      by apply ParseInt_value.
    + intros ->. by destruct (decide ("" = "")).
Qed.

(** C7 (amended): when the path has exactly three segments and the query
    has no key version, parsing fails with the missing-version error,
    whatever the other parameters. *)
Theorem C7_missing_version (uri : Url.URL) (a b c : string) :
  segments (Url.Path uri) = [a; b; c] ->
  Url.Query uri !! "version" = None ->
  ParseWorkloadConfig range uri =
    (no_config, Some (Errorf "parameter version is required")).
Proof. apply ParseWorkloadConfig_no_version. Qed.

End ParserResults.

(** ** The flags *)

Lemma foldl_flag_values (k : string) (vs flags : list string) :
  foldl (fun flags v => (flags ++ ["--" +:+ k +:+ "=" +:+ v])%list) flags vs =
  (flags ++ flags_of (k, vs))%list.
Proof.
  revert flags. induction vs as [|v vs IH]; intros flags; simpl.
  - by rewrite app_nil_r.
  - rewrite IH. unfold flags_of. simpl. by rewrite <- app_assoc.
Qed.

Lemma lookup_strip (q : Url.Values) (key k : string) :
  strip q key !! k =
    if decide (k = key /\ Url.Get q key <> "") then None else q !! k.
Proof.
  unfold strip. case_decide as Hs.
  - apply length_pos_nonempty in Hs. unfold Url.Del.
    case_decide as Hk.
    + destruct Hk as [-> _]. apply lookup_delete_eq.
    + apply lookup_delete_ne. intros ->. by apply Hk.
  - rewrite length_pos_nonempty in Hs. case_decide as Hk; [|done].
    destruct Hk as [_ Hk]. by destruct Hs.
Qed.

(** The entries that are left for the flags: never the version; a row
    bound only when its first value is empty. *)
Lemma lookup_remaining (q : Url.Values) (k : string) :
  remaining q !! k =
    if decide (k = "version") then None
    else if decide (k = "row-start" /\ Url.Get q "row-start" <> "") then None
    else if decide (k = "row-end" /\ Url.Get q "row-end" <> "") then None
    else q !! k.
Proof.
  unfold remaining. rewrite !lookup_strip.
  rewrite (Get_strip_ne _ "row-start" "row-end") by done.
  rewrite !(Get_Del_ne _ "version") by done.
  unfold Url.Del. destruct (decide (k = "version")) as [->|Hk].
  - rewrite lookup_delete_eq. repeat case_decide; naive_solver.
  - rewrite lookup_delete_ne by done.
    repeat case_decide; naive_solver.
Qed.

Section FlagFacts.

Variable range : Url.Values -> list (string * list string).
Hypothesis range_perm : forall q : Url.Values, range q ≡ₚ map_to_list q.

Lemma append_flags_flat_map (flags : list string) (q : Url.Values) :
  append_flags range flags q = (flags ++ flat_map flags_of (range q))%list.
Proof.
  unfold append_flags. generalize (range q) as l. intros l. revert flags.
  induction l as [|[k vs] l IH]; intros flags; simpl.
  - by rewrite app_nil_r.
  - rewrite foldl_flag_values, IH. by rewrite <- app_assoc.
Qed.

(** The flags of a successful parse are, up to the order of the keys, one
    flag per value of each entry that is left of the query; the flags of
    one key stand together, in the order of its values. *)
Theorem ParseWorkloadConfig_flags (uri : Url.URL) (cfg : ExternalStorage_Workload) :
  ParseWorkloadConfig range uri =
    (mkExternalStorage ExternalStorageProvider_Workload (Some cfg), None) ->
  Flags cfg ≡ₚ flat_map flags_of (map_to_list (remaining (Url.Query uri))) /\
  (forall k vs, remaining (Url.Query uri) !! k = Some vs ->
     exists l1 l2, Flags cfg = (l1 ++ flags_of (k, vs) ++ l2)%list).
Proof.
  intros H. apply ParseWorkloadConfig_success in H as (a & b & c & _ & _ & H).
  injection H as ->. simpl. rewrite append_flags_flat_map. simpl. split.
  - apply Permutation_flat_map, range_perm.
  - intros k vs Hk.
    assert (Hin : (k, vs) ∈ range (remaining (Url.Query uri))).
    { rewrite range_perm. by apply elem_of_map_to_list. }
    apply list_elem_of_split in Hin as (l1 & l2 & ->).
    exists (flat_map flags_of l1), (flat_map flags_of l2).
    by rewrite flat_map_app.
Qed.

(** The flags of a successful parse, read off the query of the URI as it
    came: up to the order of the keys they are one flag per value of each
    key but version, row-start when its first value is not empty, and
    row-end when its first value is not empty.  So a string is among the
    flags exactly when it is --k=v for a value v of such a key k: never for
    the key version, and for a row bound only when its first value is
    empty. *)
Theorem ParseWorkloadConfig_flag_entries
    (uri : Url.URL) (cfg : ExternalStorage_Workload) :
  ParseWorkloadConfig range uri =
    (mkExternalStorage ExternalStorageProvider_Workload (Some cfg), None) ->
  let q := Url.Query uri in
  Flags cfg ≡ₚ
    flat_map flags_of
      (map_to_list
         (filter (fun kv : string * list string =>
                    kv.1 <> "version" /\
                    (kv.1 = "row-start" -> Url.Get q "row-start" = "") /\
                    (kv.1 = "row-end" -> Url.Get q "row-end" = ""))
                 q)) /\
  (forall f,
     f ∈ Flags cfg <->
     exists k vs v,
       q !! k = Some vs /\ v ∈ vs /\ f = "--" +:+ k +:+ "=" +:+ v /\
       k <> "version" /\
       (k = "row-start" -> Url.Get q "row-start" = "") /\
       (k = "row-end" -> Url.Get q "row-end" = "")).
Proof.
  intros H q.
  apply ParseWorkloadConfig_success in H as (a & b & c & _ & _ & H).
  injection H as ->. cbn [Flags]. fold q.
  rewrite append_flags_flat_map. cbn [app].
  set (P := fun kv : string * list string =>
              kv.1 <> "version" /\
              (kv.1 = "row-start" -> Url.Get q "row-start" = "") /\
              (kv.1 = "row-end" -> Url.Get q "row-end" = "")).
  assert (Hrem : remaining q = filter P q).
  { apply map_eq. intros k. rewrite lookup_remaining, map_lookup_filter.
    destruct (q !! k) as [vs|] eqn:Hk; cbn.
    - destruct (decide (P (k, vs))) as [HP|HP].
      + rewrite option_guard_True by done. cbn.
        destruct HP as (H1 & H2 & H3). cbn in H1, H2, H3.
        rewrite decide_False by done.
        rewrite decide_False by (intros [Hs Hne]; by apply Hne, H2).
        by rewrite decide_False by (intros [He Hne]; by apply Hne, H3).
      + rewrite option_guard_False by done. cbn.
        repeat case_decide; try done. destruct HP. unfold P. cbn.
        split; [done|]. split; intros ->.
        * destruct (decide (Url.Get q "row-start" = "")); naive_solver.
        * destruct (decide (Url.Get q "row-end" = "")); naive_solver.
    - by repeat case_decide. }
  rewrite Hrem. split.
  - apply Permutation_flat_map, range_perm.
  - intros f. rewrite list_elem_of_In, in_flat_map. split.
    + intros ([k vs] & Hin & Hf).
      apply list_elem_of_In in Hin. rewrite range_perm in Hin.
      apply elem_of_map_to_list, map_lookup_filter_Some in Hin as [Hq HP].
      apply list_elem_of_In in Hf. unfold flags_of in Hf.
      apply list_elem_of_fmap in Hf as (v & -> & Hv).
      exists k, vs, v. by repeat split; try apply HP.
    + intros (k & vs & v & Hq & Hv & -> & HP).
      exists (k, vs). split.
      * apply list_elem_of_In. rewrite range_perm.
        apply elem_of_map_to_list, map_lookup_filter_Some. by split.
      * apply list_elem_of_In. unfold flags_of.
        apply list_elem_of_fmap. by exists v.
Qed.

End FlagFacts.

(** ** From the URI to the adapter *)

Section Pipeline.

Context {ExternalIODirConfig ClusterSettings : Type}.
Variable range : Url.Values -> list (string * list string).

(** C4 (amended): the parser does not look at the format: none of its
    errors is the unsupported-format error, and a URI that is well formed
    otherwise (three segments, a version, row bounds that are empty or
    base-10 64-bit integers) parses, whatever its format segment, to a
    configuration whose format is that segment unchanged.  The format is
    checked when the adapter is constructed: for a parsed URI whose format
    segment is not csv in any letter case, construction fails with the
    unsupported-format error of that segment, before any call into the
    generator registry. *)
Theorem C4_format_check
    (args : @ExternalStorageContext ExternalIODirConfig ClusterSettings)
    (w : World) (uri : Url.URL) :
  (forall e format, (ParseWorkloadConfig range uri).2 = Some e ->
                    e <> UnsupportedFormat format) /\
  (forall format generator table,
     segments (Url.Path uri) = [format; generator; table] ->
     is_Some (Url.Query uri !! "version") ->
     Url.Get (Url.Query uri) "row-start" = "" \/
       is_Some (int64_decimal (Url.Get (Url.Query uri) "row-start")) ->
     Url.Get (Url.Query uri) "row-end" = "" \/
       is_Some (int64_decimal (Url.Get (Url.Query uri) "row-end")) ->
     exists cfg,
       ParseWorkloadConfig range uri =
         (mkExternalStorage ExternalStorageProvider_Workload (Some cfg), None) /\
       Format cfg = format) /\
  (forall es format rest,
     ParseWorkloadConfig range uri = (es, None) ->
     segments (Url.Path uri) = format :: rest ->
     GoStrings.ToLower format <> "csv" ->
     let r := makeWorkloadStorage args es w in
     r.1 = Err (UnsupportedFormat format) /\
     calls r.2 = calls w /\ registered r.2 = registered w).
Proof.
  split; [|split].
  - intros e format He.
    apply ParseWorkloadConfig_errors in He as [->|[->|(err & ->)]].
    + apply MalformedPath_not_UnsupportedFormat.
    + apply MissingVersion_not_UnsupportedFormat.
    + discriminate.
  - intros format generator table Hseg Hver Hs He.
    destruct (ParseWorkloadConfig_round_trip range uri format generator table)
      as (cfg & Hp & Hf & _); [done|done| | |by exists cfg].
    + destruct Hs as [Hs|Hs]; [by left|right]. by apply ParseInt_ok_iff.
    + destruct He as [He|He]; [by left|right]. by apply ParseInt_ok_iff.
  - intros es format rest Hp Hseg Hfmt r. subst r.
    apply ParseWorkloadConfig_success in Hp as (a & b & c & Hs & _ & ->).
    rewrite Hs in Hseg. injection Hseg as <- <-.
    rewrite makeWorkloadStorage_bad_format by done.
    split; [reflexivity|]. split; reflexivity.
Qed.

End Pipeline.

(** C6, at the URI [/csv/bank/accounts?version=1.0.0&row-start=]: the
    key row-start, whose value is empty, is not deleted from the query and
    comes out as the flag [--row-start=], in whatever order the map is
    visited. *)
Theorem C6_empty_row_start_flag
    (range : Url.Values -> list (string * list string)) :
  (forall q : Url.Values, range q ≡ₚ map_to_list q) ->
  Url.Query uri_empty_row_start !! "row-start" = Some [""] /\
  ParseWorkloadConfig range uri_empty_row_start =
    (mkExternalStorage ExternalStorageProvider_Workload
       (Some (mkExternalStorage_Workload "csv" "bank" "1.0.0" "accounts"
                ["--row-start="] 0 0)),
     None).
Proof.
  intros Hperm. split; [reflexivity|].
  rewrite (ParseWorkloadConfig_segments range uri_empty_row_start
             "csv" "bank" "accounts") by done.
  cbv zeta. rewrite append_flags_flat_map.
  assert (Hq : range (remaining (Url.Query uri_empty_row_start))
               = [("row-start", [""])]).
  { apply Permutation_singleton_r. rewrite Hperm. reflexivity. }
  rewrite Hq. reflexivity.
Qed.

(** ** Further properties of the adapter *)

Section BindingFacts.

Context {ExternalIODirConfig ClusterSettings : Type}.

Abbreviation storage' := (@workloadStorage ExternalIODirConfig ClusterSettings).
Abbreviation context' := (@ExternalStorageContext ExternalIODirConfig ClusterSettings).

(** The loop stores the first table of the requested name. *)
Theorem select_table_first (l1 l2 : list Workload.Table) (t : Workload.Table)
    (s : storage') :
  (forall t', t' ∈ l1 -> Workload.Table_Name t' <> Table (conf s)) ->
  Workload.Table_Name t = Table (conf s) ->
  table (select_table (l1 ++ t :: l2) s) = t.
Proof.
  induction l1 as [|t1 l1 IH]; intros Hno Hname; simpl.
  - by case_decide.
  - case_decide as H1.
    + exfalso. apply (Hno t1); [left|done].
    + apply IH; [|done]. intros t' Hin. apply Hno. by right.
Qed.

(** The errors of construction other than the version mismatch: a
    generator the registry does not know, flags the generator refuses, and
    a table the generator does not have. *)
Theorem makeWorkloadStorage_binding_errors (args : context')
    (provider : ExternalStorageProvider) (c : ExternalStorage_Workload)
    (w : World) :
  GoStrings.ToLower (Format c) = "csv" ->
  let r := (makeWorkloadStorage args (mkExternalStorage provider (Some c)) w).1 in
  (registered w !! Generator c = None ->
   r = Err (UnknownGenerator (Generator c))) /\
  (forall meta, registered w !! Generator c = Some meta ->
     Workload.Meta_Version meta = Version c ->
     (forall err, configured (Workload.Meta_New meta tt) (Flags c) = inl err ->
        r = Err (InvalidFlags err (Flags c))) /\
     (forall g, configured (Workload.Meta_New meta tt) (Flags c) = inr g ->
        (forall t, t ∈ Workload.Tables g -> Workload.Table_Name t <> Table c) ->
        r = Err (UnknownTable (Table c) (Workload.Meta_Name meta)))).
Proof.
  intros Hfmt r. subst r. split.
  - intros Hreg. unfold makeWorkloadStorage, bind, workload_Get; simpl.
    case_decide; [contradiction|]. cbn [registered]. by rewrite Hreg.
  - intros meta Hreg Hv.
    rewrite (makeWorkloadStorage_resolved args provider c w meta Hfmt Hreg).
    case_decide; [contradiction|]. split.
    + intros err ->. reflexivity.
    + intros g -> Hno. cbv zeta.
      rewrite select_table_missing by exact Hno. reflexivity.
Qed.

(** Reading is stateless: every read with the empty basename returns a
    stream at the first row of the range, and leaves the adapter as it is,
    so that a second read returns the same stream. *)
Theorem ReadFile_fresh_stream (s : storage') (w : World) :
  let first := ReadFile "" (s, w) in
  let second := ReadFile "" first.2 in
  first.1 = second.1 /\ first.2.1 = s /\ second.2.1 = s /\
  exists r, first.1 = Ok r /\
            Workload.cursor r = BatchBegin (conf s) /\
            Workload.batchEnd r = BatchEnd (conf s) /\
            Workload.reader_table r = table s.
Proof.
  cbv zeta. repeat split. eexists. repeat split.
Qed.

(** [Conf] hands back the configuration the adapter was built from. *)
Theorem Conf_of_constructed (args : context') (provider : ExternalStorageProvider)
    (c : ExternalStorage_Workload) (w w' : World) (s : storage') :
  makeWorkloadStorage args (mkExternalStorage provider (Some c)) w = (Ok s, w') ->
  Conf (s, w') =
    (Ok (mkExternalStorage ExternalStorageProvider_Workload (Some c)), (s, w')).
Proof.
  intros H. assert (Hc : conf s = c); [|by rewrite <- Hc].
  revert H. unfold makeWorkloadStorage, bind; simpl.
  case_decide; [discriminate|].
  unfold workload_Get. destruct (registered _ !! Generator c) as [meta|];
    [|discriminate].
  case_decide; [discriminate|].
  unfold meta_New, Flags_Parse, gen_Tables, ret, fail.
  destruct (Workload.Flagser (Workload.Meta_New meta ())) as [parse|].
  - destruct (parse (Flags c)) as [err|g]; [discriminate|].
    case_decide; [discriminate|]. intros [= <- _].
    apply select_table_frame.
  - simpl. case_decide; [discriminate|]. intros [= <- _].
    apply select_table_frame.
Qed.

End BindingFacts.

(** ** The format, without regard to case *)

Lemma lower_byte_inv (c : ascii) :
  (GoStrings.lower_byte c = "c"%char <-> c = "c"%char \/ c = "C"%char) /\
  (GoStrings.lower_byte c = "s"%char <-> c = "s"%char \/ c = "S"%char) /\
  (GoStrings.lower_byte c = "v"%char <-> c = "v"%char \/ c = "V"%char).
Proof.
  destruct c as [[] [] [] [] [] [] [] []]; vm_compute;
    repeat split; intros; try discriminate; try (left; reflexivity);
    try (right; reflexivity); intuition discriminate.
Qed.

(** Lower-casing byte by byte gives csv for the eight spellings of csv and
    for no other string. *)
Lemma ToLower_csv (format : string) :
  GoStrings.ToLower format = "csv" <->
  format ∈ ["csv"; "csV"; "cSv"; "cSV"; "Csv"; "CsV"; "CSv"; "CSV"].
Proof.
  split.
  - destruct format as [|c1 [|c2 [|c3 [|c4 rest]]]]; try discriminate.
    simpl. intros [= H1 H2 H3].
    apply lower_byte_inv in H1, H2, H3.
    destruct H1 as [->| ->], H2 as [->| ->], H3 as [->| ->];
      repeat first [left; reflexivity | right].
  - rewrite !elem_of_cons, elem_of_nil.
    intros H. repeat (destruct H as [->|H]; [reflexivity|]). done.
Qed.

(** ** The code at concrete inputs *)

(** The example of the specification: the URI
    [/csv/bank/accounts?version=1.0.0&row-start=0&row-end=10] parses to the
    request for rows 0 to 10 of the table accounts of bank 1.0.0, without
    flags, in whatever order the map is visited. *)
Theorem spec_example_parse
    (range : Url.Values -> list (string * list string)) :
  (forall q : Url.Values, range q ≡ₚ map_to_list q) ->
  ParseWorkloadConfig range uri_bank =
    (mkExternalStorage ExternalStorageProvider_Workload
       (Some (mkExternalStorage_Workload "csv" "bank" "1.0.0" "accounts"
                [] 0 10)),
     None).
Proof.
  intros Hperm.
  rewrite (ParseWorkloadConfig_segments range uri_bank "csv" "bank" "accounts")
    by done.
  cbv zeta. rewrite append_flags_flat_map.
  assert (Hq : range (remaining (Url.Query uri_bank)) = []).
  { apply Permutation_nil_r. rewrite Hperm. reflexivity. }
  rewrite Hq. reflexivity.
Qed.

(** The example, from the URI to the stream: parsed, bound against a
    registry that has bank 1.0.0 and read with the empty basename, it gives
    the stream over accounts from row 0 to row 10. *)
Theorem spec_example_read :
  exists es s w r st,
    ParseWorkloadConfig map_to_list uri_bank = (es, None) /\
    makeWorkloadStorage args0 es world0 = (Ok s, w) /\
    ReadFile "" (s, w) = (Ok r, st) /\
    Workload.reader_table r = accounts /\
    Workload.cursor r = 0 /\ Workload.batchEnd r = 10.
Proof.
  set (c := mkExternalStorage_Workload "csv" "bank" "1.0.0" "accounts" [] 0 10).
  set (es := mkExternalStorage ExternalStorageProvider_Workload (Some c)).
  set (s := mkWorkloadStorage c tt bank_configured accounts tt).
  exists es, s, (makeWorkloadStorage args0 es world0).2,
         (Workload.mkCSVRowsReader accounts 0 10),
         (ReadFile "" (s, (makeWorkloadStorage args0 es world0).2)).2.
  split; [reflexivity|]. split; [reflexivity|]. split; [reflexivity|].
  by repeat split.
Qed.

(** C1, as stated, fails on the code: with the format json the
    constructor answers the unsupported-format error whether the versions
    differ or agree, and a table whose name is empty is never found. *)
Lemma C1_counterexample :
  (registered world0 !! "bank" = Some bank_meta /\
   Workload.Meta_Version bank_meta <> "0.9.0" /\
   (makeWorkloadStorage args0 (request "json" "0.9.0" "accounts") world0).1 =
     Err (UnsupportedFormat "json") /\
   ~ is_VersionMismatch (UnsupportedFormat "json")) /\
  (Workload.Meta_Version bank_meta = "1.0.0" /\
   configured (Workload.Meta_New bank_meta tt) [] = inr bank_configured /\
   accounts ∈ Workload.Tables bank_configured /\
   (makeWorkloadStorage args0 (request "json" "1.0.0" "accounts") world0).1 =
     Err (UnsupportedFormat "json")) /\
  (unnamed ∈ Workload.Tables bank_configured /\
   Workload.Table_Name unnamed = "" /\
   (makeWorkloadStorage args0 (request "csv" "1.0.0" "") world0).1 =
     Err (UnknownTable "" "bank")).
Proof.
  split; [|split].
  - split; [reflexivity|]. split; [discriminate|]. split; [reflexivity|].
    apply UnsupportedFormat_not_VersionMismatch.
  - split; [reflexivity|]. split; [reflexivity|]. split; [left|reflexivity].
  - split; [right; left|]. split; reflexivity.
Qed.

Lemma C1_witness :
  GoStrings.ToLower "CSV" = "csv" /\
  exists s,
    (makeWorkloadStorage args0 (request "CSV" "1.0.0" "accounts") world0).1
      = Ok s /\
    gen s = bank_configured /\ table s = accounts.
Proof.
  split; [reflexivity|].
  destruct (C1_version_check args0 ExternalStorageProvider_Workload
              (mkExternalStorage_Workload "CSV" "bank" "1.0.0" "accounts" [] 0 10)
              world0 bank_meta eq_refl eq_refl) as (_ & _ & H).
  destruct (H eq_refl bank_configured eq_refl) as (s & Hs & _ & Hg & _).
  - discriminate.
  - exists accounts. split; [left|reflexivity].
  - exists s. split; [exact Hs|]. split; [exact Hg|].
    unfold request in Hs. vm_compute in Hs. injection Hs as <-. reflexivity.
Defined.

(** C2, as stated, fails on the code: three segments and a version, and
    the parse fails on the row bound. *)
Lemma C2_counterexample :
  segments (Url.Path uri_bad_row_start) = ["csv"; "bank"; "accounts"] /\
  Url.Query uri_bad_row_start !! "version" = Some ["1.0.0"] /\
  ParseWorkloadConfig map_to_list uri_bad_row_start =
    (no_config,
     Some (NumErr (Strconv.mkNumError "ParseInt" "abc" Strconv.ErrSyntax))).
Proof. repeat split. Qed.

Lemma C2_witness :
  exists cfg,
    ParseWorkloadConfig map_to_list uri_bank =
      (mkExternalStorage ExternalStorageProvider_Workload (Some cfg), None) /\
    Format cfg = "csv" /\ Generator cfg = "bank" /\ Table cfg = "accounts" /\
    Version cfg = "1.0.0".
Proof.
  destruct (C2_parse_round_trip map_to_list uri_bank "csv" "bank" "accounts")
    as (cfg & Hp & Hf & Hg & Ht & Hv & _).
  - reflexivity.
  - by eexists.
  - right. by exists 0.
  - right. by exists 10.
  - exists cfg. repeat split; assumption.
Defined.

(** C3, as stated, fails on the code: the second of the three segments
    is empty and the parse succeeds, with the empty generator name. *)
Lemma C3_counterexample :
  segments (Url.Path uri_empty_segment) = ["csv"; ""; "accounts"] /\
  ParseWorkloadConfig map_to_list uri_empty_segment =
    (mkExternalStorage ExternalStorageProvider_Workload
       (Some (mkExternalStorage_Workload "csv" "" "1.0.0" "accounts" [] 0 0)),
     None).
Proof. repeat split. Qed.

Lemma C3_witness :
  (exists a b c, segments (Url.Path uri_bank) = [a; b; c] /\ a <> "" /\ c <> "") /\
  ParseWorkloadConfig map_to_list uri_two_segments =
    (no_config,
     Some (Errorf "path must be of the form /<format>/<generator>/<table>: /csv/bank")).
Proof.
  split.
  - apply (proj1 (C3_path_shape map_to_list uri_bank)). reflexivity.
  - apply (proj2 (C3_path_shape map_to_list uri_two_segments)). discriminate.
Defined.

(** C4, as stated, fails on the code: the format json is not csv and the
    parse succeeds. *)
Lemma C4_counterexample :
  GoStrings.ToLower "json" <> "csv" /\
  ParseWorkloadConfig map_to_list uri_json =
    (mkExternalStorage ExternalStorageProvider_Workload
       (Some (mkExternalStorage_Workload "json" "bank" "1.0.0" "accounts" [] 0 0)),
     None).
Proof. split; [discriminate|reflexivity]. Qed.

Lemma C4_witness :
  (exists cfg,
     ParseWorkloadConfig map_to_list uri_json =
       (mkExternalStorage ExternalStorageProvider_Workload (Some cfg), None) /\
     Format cfg = "json") /\
  let r := makeWorkloadStorage args0
             (ParseWorkloadConfig map_to_list uri_json).1 world0 in
  r.1 = Err (UnsupportedFormat "json") /\ calls r.2 = [].
Proof.
  destruct (C4_format_check map_to_list args0 world0 uri_json)
    as (_ & Hparse & Hmake).
  split.
  - apply (Hparse "json" "bank" "accounts").
    + reflexivity.
    + by exists ["1.0.0"].
    + by left.
    + by left.
  - destruct (Hmake (ParseWorkloadConfig map_to_list uri_json).1 "json"
                ["bank"; "accounts"])
      as (H1 & H2 & _).
    + reflexivity.
    + reflexivity.
    + discriminate.
    + split; [exact H1|exact H2].
Defined.

(** C5, as stated, fails on the code: row-start is present, its value is
    empty and so no integer, and the parse succeeds with the bound 0. *)
Lemma C5_counterexample :
  Url.Query uri_empty_row_start !! "row-start" = Some [""] /\
  int64_decimal "" = None /\
  (Strconv.ParseInt "" 10 64).2 =
    Some (Strconv.mkNumError "ParseInt" "" Strconv.ErrSyntax) /\
  (ParseWorkloadConfig map_to_list uri_empty_row_start).2 = None /\
  BatchBegin <$> WorkloadConfig (ParseWorkloadConfig map_to_list uri_empty_row_start).1
    = Some 0.
Proof. repeat split. Qed.

Lemma C5_witness :
  (forall cfg,
     ParseWorkloadConfig map_to_list uri_bank =
       (mkExternalStorage ExternalStorageProvider_Workload (Some cfg), None) ->
     BatchBegin cfg = 0 /\ BatchEnd cfg = 10) /\
  exists err,
    ParseWorkloadConfig map_to_list uri_bad_row_start = (no_config, Some err) /\
    is_BadRowBound err.
Proof.
  split.
  - intros cfg Hcfg.
    destruct (C5_row_bounds map_to_list uri_bank "csv" "bank" "accounts")
      as (_ & H & _); [reflexivity|discriminate|].
    destruct (H cfg Hcfg) as (Hb & _ & He & _).
    split; [by apply Hb|by apply He].
  - apply (C5_row_bounds map_to_list uri_bad_row_start "csv" "bank" "accounts");
      [reflexivity|discriminate|].
    left. split; [discriminate|reflexivity].
Defined.

Lemma C6_witness :
  ParseWorkloadConfig map_to_list uri_empty_row_start =
    (mkExternalStorage ExternalStorageProvider_Workload
       (Some (mkExternalStorage_Workload "csv" "bank" "1.0.0" "accounts"
                ["--row-start="] 0 0)),
     None).
Proof.
  apply (C6_empty_row_start_flag map_to_list). intros q. reflexivity.
Defined.

(** C7, as stated, fails on the code: no version, and the error is the
    malformed path, since the path is looked at first. *)
Lemma C7_counterexample :
  Url.Query uri_two_segments !! "version" = None /\
  ParseWorkloadConfig map_to_list uri_two_segments =
    (no_config, Some (MalformedPath "/csv/bank")) /\
  MalformedPath "/csv/bank" <> MissingVersion.
Proof. split; [reflexivity|]. split; [reflexivity|discriminate]. Qed.

Lemma C7_witness :
  ParseWorkloadConfig map_to_list uri_no_version =
    (no_config, Some (Errorf "parameter version is required")).
Proof.
  apply (C7_missing_version map_to_list uri_no_version "csv" "bank" "accounts");
    reflexivity.
Defined.

Lemma C8_witness :
  (ReadFile "part-1" (adapter0, world0)).1 = Err UnexpectedBasename /\
  (ReadFile "part-1" (adapter0, world0)).2 = (adapter0, world0).
Proof.
  destruct (C8_unexpected_basename adapter0 world0 "part-1") as [H _].
  - discriminate.
  - rewrite H. split; reflexivity.
Defined.

Lemma spec_example_parse_witness :
  Format <$> WorkloadConfig (ParseWorkloadConfig map_to_list uri_bank).1
    = Some "csv" /\
  Flags <$> WorkloadConfig (ParseWorkloadConfig map_to_list uri_bank).1
    = Some [].
Proof.
  rewrite (spec_example_parse map_to_list); [by split|].
  intros q. reflexivity.
Defined.

Lemma ParseWorkloadConfig_flags_witness :
  exists cfg l1 l2,
    ParseWorkloadConfig map_to_list uri_flags =
      (mkExternalStorage ExternalStorageProvider_Workload (Some cfg), None) /\
    Flags cfg = (l1 ++ ["--rows=5"; "--rows=7"] ++ l2)%list /\
    BatchEnd cfg = 3.
Proof.
  destruct (ParseWorkloadConfig map_to_list uri_flags) as [es o] eqn:Hp.
  vm_compute in Hp. injection Hp as <- <-.
  eexists.
  destruct (ParseWorkloadConfig_flags map_to_list (fun q => reflexivity _)
              uri_flags _ eq_refl) as [_ H].
  destruct (H "rows" ["5"; "7"] eq_refl) as (l1 & l2 & Hl).
  exists l1, l2. split; [reflexivity|]. split; [exact Hl|reflexivity].
Defined.

Lemma ParseWorkloadConfig_flag_entries_witness :
  exists cfg,
    ParseWorkloadConfig map_to_list uri_flags =
      (mkExternalStorage ExternalStorageProvider_Workload (Some cfg), None) /\
    "--rows=7" ∈ Flags cfg.
Proof.
  destruct (ParseWorkloadConfig map_to_list uri_flags) as [es o] eqn:Hp.
  vm_compute in Hp. injection Hp as <- <-.
  eexists. split; [reflexivity|].
  destruct (ParseWorkloadConfig_flag_entries map_to_list
              (fun q => reflexivity _) uri_flags _ eq_refl) as [_ H].
  apply H. exists "rows", ["5"; "7"], "7".
  split; [reflexivity|]. split; [by right; left|].
  split; [reflexivity|]. by repeat split.
Defined.

Lemma select_table_first_witness :
  table (select_table [unnamed; accounts] adapter0) = accounts.
Proof.
  apply (select_table_first [unnamed] [] accounts adapter0); [|reflexivity].
  intros t' Hin. apply list_elem_of_singleton in Hin as ->. discriminate.
Defined.

Lemma makeWorkloadStorage_binding_errors_witness :
  (makeWorkloadStorage args0 (request "csv" "1.0.0" "orders") world0).1 =
    Err (UnknownTable "orders" "bank") /\
  (makeWorkloadStorage args0
     (mkExternalStorage ExternalStorageProvider_Workload
        (Some (mkExternalStorage_Workload "csv" "tpcc" "1.0.0" "orders"
                 [] 0 0))) world0).1 =
    Err (UnknownGenerator "tpcc").
Proof.
  split.
  - destruct (makeWorkloadStorage_binding_errors args0
                ExternalStorageProvider_Workload
                (mkExternalStorage_Workload "csv" "bank" "1.0.0" "orders" [] 0 10)
                world0 eq_refl) as [_ H].
    destruct (H bank_meta eq_refl eq_refl) as [_ Ht].
    apply (Ht bank_configured eq_refl).
    intros t Hin. cbn in Hin. rewrite !elem_of_cons, elem_of_nil in Hin.
    destruct Hin as [->|[->|[]]]; discriminate.
  - apply (makeWorkloadStorage_binding_errors args0
             ExternalStorageProvider_Workload
             (mkExternalStorage_Workload "csv" "tpcc" "1.0.0" "orders" [] 0 0)
             world0 eq_refl).
    reflexivity.
Defined.

Lemma Conf_of_constructed_witness :
  exists s w,
    makeWorkloadStorage args0 (request "csv" "1.0.0" "accounts") world0
      = (Ok s, w) /\
    (Conf (s, w)).1 = Ok (request "csv" "1.0.0" "accounts").
Proof.
  destruct (makeWorkloadStorage args0 (request "csv" "1.0.0" "accounts") world0)
    as [r w] eqn:Hm.
  destruct r as [s|e|msg]; try (vm_compute in Hm; discriminate Hm).
  exists s, w. split; [reflexivity|].
  by rewrite (Conf_of_constructed args0 _ _ world0 w s Hm).
Defined.

(** * More of the adapter and of the parser *)

(** ** Construction, case by case *)

Section Construction.

Context {ExternalIODirConfig ClusterSettings : Type}.

Implicit Types (args : @ExternalStorageContext ExternalIODirConfig ClusterSettings)
               (s : @workloadStorage ExternalIODirConfig ClusterSettings).

(** The result and the calls of the constructor, by the checks in the
    order the code makes them. *)
Lemma makeWorkloadStorage_outcome args (dest : ExternalStorage) (w : World) :
  let r := makeWorkloadStorage args dest w in
  registered r.2 = registered w /\
  counters r.2 = (telemetry_Count "external-io.workload" w).2.(counters) /\
  match WorkloadConfig dest with
  | None => r.1 = Err InfoMissing /\ calls r.2 = calls w
  | Some c =>
      if decide (GoStrings.ToLower (Format c) = "csv") then
        match registered w !! Generator c with
        | None =>
            r.1 = Err (UnknownGenerator (Generator c)) /\
            calls r.2 = (calls w ++ [CallGet (Generator c)])%list
        | Some meta =>
            if decide (Workload.Meta_Version meta = Version c) then
              let new := CallNew (Workload.Meta_Name meta) in
              let parse :=
                match Workload.Flagser (Workload.Meta_New meta tt) with
                | Some _ => [CallFlagsParse (Flags c)]
                | None => []
                end in
              match configured (Workload.Meta_New meta tt) (Flags c) with
              | inl err =>
                  r.1 = Err (InvalidFlags err (Flags c)) /\
                  calls r.2 =
                    (calls w ++ [CallGet (Generator c); new] ++ parse)%list
              | inr g =>
                  let s := select_table (Workload.Tables g) (unbound args c g) in
                  r.1 = (if decide (Workload.Table_Name (table s) = "")
                         then Err (UnknownTable (Table c) (Workload.Meta_Name meta))
                         else Ok s) /\
                  calls r.2 =
                    (calls w ++ [CallGet (Generator c); new] ++ parse
                     ++ [CallTables])%list
              end
            else
              r.1 = Err (VersionMismatch (Workload.Meta_Name meta) (Version c)
                                         (Workload.Meta_Version meta)) /\
              calls r.2 = (calls w ++ [CallGet (Generator c)])%list
        end
      else r.1 = Err (UnsupportedFormat (Format c)) /\ calls r.2 = calls w
  end.
Proof.
  cbv zeta. destruct dest as [provider [c|]]; cbn [WorkloadConfig].
  2: { unfold makeWorkloadStorage, bind; simpl. by repeat split. }
  unfold makeWorkloadStorage, bind; cbn [WorkloadConfig telemetry_Count].
  destruct (decide (GoStrings.ToLower (Format c) = "csv")) as [Hf|Hf].
  2: { case_decide; [|contradiction]. by repeat split. }
  case_decide; [contradiction|].
  unfold workload_Get; cbn [registered].
  destruct (registered w !! Generator c) as [meta|]; [|by repeat split].
  destruct (decide (Workload.Meta_Version meta = Version c)) as [Hv|Hv].
  2: { case_decide; [|contradiction]. by repeat split. }
  case_decide; [contradiction|].
  unfold meta_New, configured, Flags_Parse, gen_Tables, ret, fail, unbound, log;
    cbn [registered counters calls fst snd].
  destruct (Workload.Flagser (Workload.Meta_New meta ())) as [parse|].
  - destruct (parse (Flags c)) as [err|g]; cbn [registered counters calls fst snd].
    + repeat split. by rewrite <- !app_assoc.
    + case_decide; cbn [registered counters calls fst snd];
        repeat split; by rewrite <- !app_assoc.
  - cbn [registered counters calls fst snd].
    case_decide; cbn [registered counters calls fst snd];
      repeat split; by rewrite <- !app_assoc.
Qed.

(** The loop over the tables either leaves the adapter as it is or stores
    one of the tables, of the requested name. *)
Lemma select_table_cases (tables : list Workload.Table) s :
  select_table tables s = s \/
  (table (select_table tables s) ∈ tables /\
   Workload.Table_Name (table (select_table tables s)) = Table (conf s)).
Proof.
  induction tables as [|t tables IH]; simpl; [by left|].
  case_decide as Ht.
  - right. simpl. split; [left|done].
  - destruct IH as [IH|[IH1 IH2]]; [by left|right].
    split; [by right|done].
Qed.




(** What holds of an adapter that construction returned. *)
Lemma makeWorkloadStorage_ok_inv args (dest : ExternalStorage) (w : World) s :
  (makeWorkloadStorage args dest w).1 = Ok s ->
  WorkloadConfig dest = Some (conf s) /\
  ioConf s = IOConf args /\ settings s = Settings args /\
  GoStrings.ToLower (Format (conf s)) = "csv" /\
  (exists meta,
     registered w !! Generator (conf s) = Some meta /\
     Workload.Meta_Version meta = Version (conf s) /\
     configured (Workload.Meta_New meta tt) (Flags (conf s)) = inr (gen s)) /\
  table s ∈ Workload.Tables (gen s) /\
  Workload.Table_Name (table s) = Table (conf s) /\
  Table (conf s) <> "".
Proof.
  intros Hok.
  destruct (makeWorkloadStorage_outcome args dest w) as (_ & _ & H).
  cbv zeta in H. rewrite Hok in H.
  destruct (WorkloadConfig dest) as [c|]; [|by destruct H].
  destruct (decide (GoStrings.ToLower (Format c) = "csv")) as [Hf|Hf];
    [|by destruct H].
  destruct (registered w !! Generator c) as [meta|] eqn:Hreg; [|by destruct H].
  destruct (decide (Workload.Meta_Version meta = Version c)) as [Hv|Hv];
    [|by destruct H].
  cbv zeta in H.
  destruct (configured (Workload.Meta_New meta ()) (Flags c)) as [err|g] eqn:Hg;
    [by destruct H|].
  destruct H as [H _]. case_decide as Hn; [discriminate H|].
  injection H as ->.
  destruct (select_table_frame (Workload.Tables g) (unbound args c g))
    as (Hc & Hgen & Hio & Hset).
  rewrite Hc, Hgen, Hio, Hset. cbn [unbound conf gen ioConf settings].
  destruct (select_table_cases (Workload.Tables g) (unbound args c g))
    as [Hsame|[Hin Hname]].
  { rewrite Hsame in Hn. by destruct Hn. }
  rewrite Hname in *. cbn [unbound conf] in *.
  repeat split; try done. by exists meta.
Qed.

(** An adapter that construction returned holds the configuration of the
    destination and the two fields of the context; its format is csv in
    some letter case; its generator is the registered one, of the requested
    version, configured by the flags; and its table is one of the tables of
    that generator, of the requested name, which is not empty. *)
Theorem constructed_adapter args (dest : ExternalStorage) (w : World) s :
  (makeWorkloadStorage args dest w).1 = Ok s ->
  WorkloadConfig dest = Some (conf s) /\
  ioConf s = IOConf args /\ settings s = Settings args /\
  GoStrings.ToLower (Format (conf s)) = "csv" /\
  (exists meta,
     registered w !! Generator (conf s) = Some meta /\
     Workload.Meta_Version meta = Version (conf s) /\
     configured (Workload.Meta_New meta tt) (Flags (conf s)) = inr (gen s)) /\
  table s ∈ Workload.Tables (gen s) /\
  Workload.Table_Name (table s) = Table (conf s) /\
  Table (conf s) <> "".
Proof. apply makeWorkloadStorage_ok_inv. Qed.

(** The calls of construction into package workload, in their order and
    each under its condition.  The log grows by exactly these calls: none
    when the configuration is missing or the format is not csv in any
    letter case; otherwise one lookup, of the generator of the request, and
    no more when the registry does not know it or holds another version;
    otherwise the making of the generator, then, when the generator takes
    flags, the parsing of the flags of the request, then the listing of
    the tables unless the flags were refused.  No row stream is opened,
    and the registry is left as it was. *)
Theorem makeWorkloadStorage_calls args (dest : ExternalStorage) (w : World) :
  let r := makeWorkloadStorage args dest w in
  registered r.2 = registered w /\
  calls r.2 =
    (calls w ++
     match WorkloadConfig dest with
     | None => []
     | Some c =>
         if decide (GoStrings.ToLower (Format c) = "csv") then
           CallGet (Generator c) ::
           match registered w !! Generator c with
           | None => []
           | Some meta =>
               if decide (Workload.Meta_Version meta = Version c) then
                 CallNew (Workload.Meta_Name meta) ::
                 match Workload.Flagser (Workload.Meta_New meta tt) with
                 | None => [CallTables]
                 | Some parse =>
                     CallFlagsParse (Flags c) ::
                     match parse (Flags c) with
                     | inl _ => []
                     | inr _ => [CallTables]
                     end
                 end
               else []
           end
         else []
     end)%list /\
  (forall t b e, CallNewCSVRowsReader t b e ∈ calls r.2 ->
                 CallNewCSVRowsReader t b e ∈ calls w).
Proof.
  cbv zeta. destruct (makeWorkloadStorage_outcome args dest w) as (Hreg & _ & H).
  split; [exact Hreg|]. cbv zeta in H.
  assert (Hl : forall l : list Call,
             calls (makeWorkloadStorage args dest w).2 = (calls w ++ l)%list ->
             Forall (fun call => forall t b e,
                                   call <> CallNewCSVRowsReader t b e) l ->
             calls (makeWorkloadStorage args dest w).2 = (calls w ++ l)%list /\
             (forall t b e,
                CallNewCSVRowsReader t b e
                  ∈ calls (makeWorkloadStorage args dest w).2 ->
                CallNewCSVRowsReader t b e ∈ calls w)).
  { intros l -> Hall. split; [done|]. intros t b e Hin.
    apply elem_of_app in Hin as [Hin|Hin]; [done|].
    rewrite Forall_forall in Hall. by destruct (Hall _ Hin t b e). }
  destruct (WorkloadConfig dest) as [c|].
  2: { destruct H as [_ H]. apply Hl; [by rewrite app_nil_r|constructor]. }
  destruct (decide (GoStrings.ToLower (Format c) = "csv")) as [Hf|Hf].
  2: { destruct H as [_ H]. apply Hl; [by rewrite app_nil_r|constructor]. }
  destruct (registered w !! Generator c) as [meta|] eqn:Hm.
  2: { destruct H as [_ H]. apply Hl; [done|]. by repeat constructor. }
  destruct (decide (Workload.Meta_Version meta = Version c)) as [Hv|Hv].
  2: { destruct H as [_ H]. apply Hl; [done|]. by repeat constructor. }
  cbv zeta in H. unfold configured in H.
  destruct (Workload.Flagser (Workload.Meta_New meta ())) as [parse|].
  - destruct (parse (Flags c)) as [err|g]; destruct H as [_ H];
      (apply Hl; [exact H|]); by repeat constructor.
  - destruct H as [_ H]. apply Hl; [exact H|]. by repeat constructor.
Qed.

(** The format check by spellings, for a configuration whose format has
    ASCII bytes only: construction fails with the unsupported-format error
    of that format exactly when the format is none of the eight spellings
    of csv in upper-case and lower-case letters. *)
Theorem makeWorkloadStorage_format_spellings args (dest : ExternalStorage)
    (c : ExternalStorage_Workload) (w : World) :
  WorkloadConfig dest = Some c ->
  is_ascii (Format c) = true ->
  ((makeWorkloadStorage args dest w).1 = Err (UnsupportedFormat (Format c)) <->
   Format c ∉ ["csv"; "csV"; "cSv"; "cSV"; "Csv"; "CsV"; "CSv"; "CSV"]).
Proof.
  intros Hc _. rewrite <- ToLower_csv.
  destruct (makeWorkloadStorage_outcome args dest w) as (_ & _ & H).
  cbv zeta in H. rewrite Hc in H.
  destruct (decide (GoStrings.ToLower (Format c) = "csv")) as [Hf|Hf].
  2: { by destruct H as [-> _]. }
  split; [|done]. intros Hr. exfalso. rewrite Hr in H.
  destruct (registered w !! Generator c) as [meta|].
  2: { destruct H as [H _]. discriminate H. }
  destruct (decide (Workload.Meta_Version meta = Version c)) as [Hv|Hv].
  2: { destruct H as [H _]. discriminate H. }
  cbv zeta in H.
  destruct (configured (Workload.Meta_New meta ()) (Flags c)) as [err|g].
  - destruct H as [H _]. discriminate H.
  - destruct H as [H _]. case_decide; discriminate H.
Qed.

(** The two other getters hand back the fields of the context the adapter
    was constructed with, and change nothing. *)
Theorem getters_of_constructed args (dest : ExternalStorage) (w w' : World) s :
  makeWorkloadStorage args dest w = (Ok s, w') ->
  ExternalIOConf (s, w') = (Ok (IOConf args), (s, w')) /\
  Settings_ (s, w') = (Ok (Settings args), (s, w')).
Proof.
  intros H.
  destruct (makeWorkloadStorage_ok_inv args dest w s) as (_ & Hio & Hset & _).
  { by rewrite H. }
  unfold ExternalIOConf, Settings_, bind, self, ret; simpl.
  by rewrite Hio, Hset.
Qed.

End Construction.

(** ** The adapter between calls *)

Section Statelessness.

Context {ExternalIODirConfig ClusterSettings : Type}.

Implicit Types (s : @workloadStorage ExternalIODirConfig ClusterSettings)
               (op : Op) (ops : list Op).

(** One call: the adapter, the registry and the counters are as before,
    and the log has the stream the call opened, if it opened one. *)
Lemma run_op_frame op s (w : World) :
  (run_op op (s, w)).2.1 = s /\
  registered (run_op op (s, w)).2.2 = registered w /\
  counters (run_op op (s, w)).2.2 = counters w /\
  calls (run_op op (s, w)).2.2 = (calls w ++ streams_opened s [op])%list.
Proof.
  destruct op as [| | |b o|b|b c|p|b|b|]; simpl;
    try (rewrite app_nil_r; by repeat split).
  destruct b as [|ch b]; simpl; [by repeat split|].
  rewrite app_nil_r. by repeat split.
Qed.

(** What a call returns does not depend on the world. *)
Lemma run_op_result op s (w w' : World) :
  (run_op op (s, w)).1 = (run_op op (s, w')).1.
Proof.
  destruct op as [| | |b o|b|b c|p|b|b|]; try reflexivity.
  by destruct b.
Qed.

(** The adapter keeps no state between calls: in any sequence of calls of
    its methods, each call returns what it would return as the first call,
    the adapter, the registry and the counters end as they started, and the
    row streams opened are one per read with the empty basename. *)
Theorem adapter_stateless ops s (w : World) :
  let out := run_ops ops (s, w) in
  out.1 = map (fun op => (run_op op (s, w)).1) ops /\
  out.2.1 = s /\
  registered out.2.2 = registered w /\
  counters out.2.2 = counters w /\
  calls out.2.2 = (calls w ++ streams_opened s ops)%list.
Proof.
  cbv zeta. revert w. induction ops as [|op ops IH]; intros w.
  - simpl. rewrite app_nil_r. by repeat split.
  - cbn [run_ops].
    destruct (run_op op (s, w)) as [r [s1 w1]] eqn:Hop.
    pose proof (run_op_frame op s w) as (Hs & Hreg & Hcnt & Hcalls).
    rewrite Hop in Hs, Hreg, Hcnt, Hcalls. simpl in Hs, Hreg, Hcnt, Hcalls.
    subst s1. specialize (IH w1).
    destruct (run_ops ops (s, w1)) as [rs [s2 w2]].
    simpl in IH. destruct IH as (Hrs & Hs2 & Hreg2 & Hcnt2 & Hcalls2).
    cbn [fst snd map]. split; [|split; [|split; [|split]]].
    + rewrite Hop. cbn [fst]. f_equal. rewrite Hrs.
      apply map_ext. intros op'. apply run_op_result.
    + done.
    + congruence.
    + congruence.
    + rewrite Hcalls2, Hcalls. unfold streams_opened. simpl.
      by rewrite app_nil_r, <- app_assoc.
Qed.

End Statelessness.

(** ** The parser, case by case *)

Section ParserCases.

Variable range : Url.Values -> list (string * list string).

(** The three ways the parser goes: a path that has not three segments, a
    query without version, and the reading of the row bounds. *)
Lemma ParseWorkloadConfig_cases (uri : Url.URL) :
  (List.length (segments (Url.Path uri)) <> 3%nat /\
   ParseWorkloadConfig range uri =
     (no_config, Some (MalformedPath (Url.Path uri)))) \/
  exists a b c,
    segments (Url.Path uri) = [a; b; c] /\
    ((Url.Query uri !! "version" = None /\
      ParseWorkloadConfig range uri = (no_config, Some MissingVersion)) \/
     (Url.Query uri !! "version" <> None /\
      ParseWorkloadConfig range uri =
        let q := Url.Query uri in
        match row_bound q "row-start" with
        | (_, Some err) => (no_config, Some (NumErr err))
        | (batchBegin, None) =>
            match row_bound q "row-end" with
            | (_, Some err) => (no_config, Some (NumErr err))
            | (batchEnd, None) =>
                (mkExternalStorage ExternalStorageProvider_Workload
                   (Some (mkExternalStorage_Workload a b
                            (Url.Get q "version") c
                            (append_flags range [] (remaining q))
                            batchBegin batchEnd)),
                 None)
            end
        end)).
Proof.
  destruct (decide (List.length (segments (Url.Path uri)) = 3%nat)) as [Hl|Hl].
  - right.
    destruct (segments (Url.Path uri)) as [|a [|b [|c [|d l]]]] eqn:Hseg;
      try discriminate Hl.
    exists a, b, c. split; [done|].
    destruct (decide (Url.Query uri !! "version" = None)) as [Hv|Hv].
    + left. split; [done|]. by apply ParseWorkloadConfig_no_version with a b c.
    + right. split; [done|]. by apply ParseWorkloadConfig_segments.
  - left. split; [done|]. by apply ParseWorkloadConfig_malformed.
Qed.

(** The parser returns a configuration or an error, never both and never
    neither; the provider is set either way. *)
Theorem ParseWorkloadConfig_shape (uri : Url.URL) :
  let r := ParseWorkloadConfig range uri in
  Provider r.1 = ExternalStorageProvider_Workload /\
  (r.2 = None <-> is_Some (WorkloadConfig r.1)) /\
  (is_Some r.2 <-> WorkloadConfig r.1 = None).
Proof.
  cbv zeta.
  destruct (ParseWorkloadConfig_cases uri)
    as [[_ ->]|(a & b & c & _ & [[_ ->]|[_ ->]])].
  - split; [done|]. split; (split; [done|]); [by intros [x [=]]|by eexists].
  - split; [done|]. split; (split; [done|]); [by intros [x [=]]|by eexists].
  - cbv zeta.
    destruct (row_bound (Url.Query uri) "row-start") as [n [err|]].
    { split; [done|]. split; (split; [done|]); [by intros [x [=]]|by eexists]. }
    destruct (row_bound (Url.Query uri) "row-end") as [m [err|]].
    { split; [done|]. split; (split; [done|]); [by intros [x [=]]|by eexists]. }
    split; [done|]. split; split.
    + intros _. by eexists.
    + done.
    + by intros [x [=]].
    + intros [=].
Qed.

End ParserCases.

(** The order in which the query map is visited changes nothing but the
    order of the flags: two parses of a URI return the same error, or
    configurations that agree in every field, the flags up to their
    order. *)
Theorem ParseWorkloadConfig_order
    (range1 range2 : Url.Values -> list (string * list string))
    (uri : Url.URL) :
  (forall q : Url.Values, range1 q ≡ₚ map_to_list q) ->
  (forall q : Url.Values, range2 q ≡ₚ map_to_list q) ->
  let r1 := ParseWorkloadConfig range1 uri in
  let r2 := ParseWorkloadConfig range2 uri in
  r1.2 = r2.2 /\
  match WorkloadConfig r1.1, WorkloadConfig r2.1 with
  | Some c1, Some c2 =>
      Format c1 = Format c2 /\ Generator c1 = Generator c2 /\
      Version c1 = Version c2 /\ Table c1 = Table c2 /\
      BatchBegin c1 = BatchBegin c2 /\ BatchEnd c1 = BatchEnd c2 /\
      Flags c1 ≡ₚ Flags c2
  | None, None => True
  | _, _ => False
  end.
Proof.
  intros H1 H2. cbv zeta.
  destruct (ParseWorkloadConfig_cases range1 uri)
    as [[Hl ->]|(a & b & c & Hseg & [[Hv ->]|[Hv ->]])].
  - by rewrite (ParseWorkloadConfig_malformed range2 uri Hl).
  - by rewrite (ParseWorkloadConfig_no_version range2 uri a b c Hseg Hv).
  - rewrite (ParseWorkloadConfig_segments range2 uri a b c Hseg Hv). cbv zeta.
    destruct (row_bound (Url.Query uri) "row-start") as [n [err|]]; [done|].
    destruct (row_bound (Url.Query uri) "row-end") as [m [err|]]; [done|].
    simpl. repeat split.
    rewrite !append_flags_flat_map. simpl.
    apply Permutation_flat_map. by rewrite H1, H2.
Qed.

(** ** The path and its segments *)

Lemma append_cons (c : ascii) (s t : string) :
  String c s +:+ t = String c (s +:+ t).
Proof. reflexivity. Qed.

(** Splitting on the slash and joining with it gives the string back. *)
Lemma Join_genSplit_slash (s : string) :
  GoStrings.Join (GoStrings.genSplit s "/" 0) "/" = s.
Proof.
  induction s as [|c s IH]; [done|]. rewrite genSplit_slash_cons.
  pose proof (genSplit_slash_nonempty s) as Hne.
  destruct (GoStrings.genSplit s "/" 0) as [|seg rest] eqn:Hs; [done|].
  destruct (Ascii.eqb c "/") eqn:Hc.
  - apply Ascii.eqb_eq in Hc as ->.
    change (GoStrings.Join ("" :: seg :: rest) "/")
      with ("" +:+ "/" +:+ GoStrings.Join (seg :: rest) "/").
    by rewrite IH.
  - destruct rest as [|seg' rest].
    + simpl in *. by rewrite IH.
    + change (GoStrings.Join (String c seg :: seg' :: rest) "/")
        with (String c seg +:+ "/" +:+ GoStrings.Join (seg' :: rest) "/").
      change (GoStrings.Join (seg :: seg' :: rest) "/")
        with (seg +:+ "/" +:+ GoStrings.Join (seg' :: rest) "/") in IH.
      rewrite append_cons. f_equal. exact IH.
Qed.

(** No segment has a slash. *)
Lemma genSplit_slash_no_slash (s seg : string) :
  seg ∈ GoStrings.genSplit s "/" 0 -> has_byte "/" seg = false.
Proof.
  revert seg. induction s as [|c s IH]; intros seg.
  - simpl. intros Hin. by apply list_elem_of_singleton in Hin as ->.
  - rewrite genSplit_slash_cons.
    pose proof (genSplit_slash_nonempty s) as Hne.
    destruct (GoStrings.genSplit s "/" 0) as [|x rest] eqn:Hs; [done|].
    destruct (Ascii.eqb c "/") eqn:Hc.
    + intros Hin. apply elem_of_cons in Hin as [->|Hin]; [done|by apply IH].
    + intros Hin. apply elem_of_cons in Hin as [->|Hin].
      * simpl. rewrite Hc. apply IH. by left.
      * apply IH. by right.
Qed.

Lemma TrimRight_fixed (s cutset : string) :
  (forall c, last_byte s = Some c -> GoStrings.in_cutset c cutset = false) ->
  GoStrings.TrimRight s cutset = s.
Proof.
  induction s as [|a s IH]; intros Hl; [done|].
  cbn [GoStrings.TrimRight]. destruct s as [|b s].
  - simpl. by rewrite (Hl a).
  - rewrite IH; [done|]. intros c Hc. apply Hl. by rewrite last_byte_cons.
Qed.

Lemma TrimLeft_fixed (s cutset : string) :
  (forall c, first_byte s = Some c -> GoStrings.in_cutset c cutset = false) ->
  GoStrings.TrimLeft s cutset = s.
Proof.
  destruct s as [|a s]; intros Hf; [done|]. simpl. by rewrite (Hf a).
Qed.

(** Trimming what is trimmed changes nothing. *)
Lemma Trim_idempotent (s cutset : string) :
  GoStrings.Trim (GoStrings.Trim s cutset) cutset = GoStrings.Trim s cutset.
Proof.
  unfold GoStrings.Trim at 1.
  rewrite TrimRight_fixed.
  - apply TrimLeft_fixed. intros c Hc. apply (Trim_ends s cutset c). by left.
  - intros c Hc. apply (Trim_ends s cutset c). by right.
Qed.

Lemma TrimRight_snoc_slash (s : string) :
  GoStrings.TrimRight (s +:+ "/") "/" = GoStrings.TrimRight s "/".
Proof.
  induction s as [|a s IH]; [done|].
  rewrite append_cons. cbn [GoStrings.TrimRight]. by rewrite IH.
Qed.

(** A slash more in front of a path or behind it is trimmed with the
    others. *)
Lemma Trim_more_slashes (s : string) :
  GoStrings.Trim (String "/" s) "/" = GoStrings.Trim s "/" /\
  GoStrings.Trim (s +:+ "/") "/" = GoStrings.Trim s "/".
Proof.
  unfold GoStrings.Trim. split.
  - cbn [GoStrings.TrimRight].
    by destruct (GoStrings.TrimRight s "/").
  - by rewrite TrimRight_snoc_slash.
Qed.

Lemma int64_decimal_range (s : string) (n : Z) :
  int64_decimal s = Some n -> - 2 ^ 63 <= n < 2 ^ 63.
Proof.
  unfold int64_decimal. destruct (decimal s) as [m|]; [|done].
  destruct ((- 2 ^ 63 <=? m) && (m <? 2 ^ 63)) eqn:Hr; [|done].
  intros [= <-]. lia.
Qed.

(** A row bound the parser has read is an integer of 64 bits. *)
Lemma row_bound_range (q : Url.Values) (k : string) :
  (row_bound q k).2 = None -> - 2 ^ 63 <= (row_bound q k).1 < 2 ^ 63.
Proof.
  unfold row_bound. case_decide; [|simpl; lia].
  intros Hok. apply ParseInt_ok_iff in Hok as [n Hn].
  rewrite (ParseInt_value _ _ Hn). by eapply int64_decimal_range.
Qed.

Section PathFacts.

Variable range : Url.Values -> list (string * list string).

(** The configuration of a successful parse is well formed: the trimmed
    path is the format, the generator and the table joined by slashes;
    none of the three has a slash; the format and the table are not empty;
    and the two row bounds are integers of 64 bits. *)
Theorem ParseWorkloadConfig_wellformed (uri : Url.URL)
    (cfg : ExternalStorage_Workload) :
  ParseWorkloadConfig range uri =
    (mkExternalStorage ExternalStorageProvider_Workload (Some cfg), None) ->
  GoStrings.Trim (Url.Path uri) "/" =
    Format cfg +:+ "/" +:+ Generator cfg +:+ "/" +:+ Table cfg /\
  has_byte "/" (Format cfg) = false /\
  has_byte "/" (Generator cfg) = false /\
  has_byte "/" (Table cfg) = false /\
  Format cfg <> "" /\ Table cfg <> "" /\
  - 2 ^ 63 <= BatchBegin cfg < 2 ^ 63 /\
  - 2 ^ 63 <= BatchEnd cfg < 2 ^ 63.
Proof.
  intros Hp.
  destruct (ParseWorkloadConfig_cases range uri)
    as [[_ H]|(a & b & c & Hseg & [[_ H]|[_ H]])];
    rewrite H in Hp; try discriminate Hp.
  cbv zeta in Hp.
  pose proof (row_bound_range (Url.Query uri) "row-start") as Hb.
  pose proof (row_bound_range (Url.Query uri) "row-end") as He.
  destruct (row_bound (Url.Query uri) "row-start") as [n [err|]];
    [discriminate Hp|].
  destruct (row_bound (Url.Query uri) "row-end") as [m [err|]];
    [discriminate Hp|].
  injection Hp as <-. cbn [Format Generator Table BatchBegin BatchEnd].
  pose proof (segments_ends _ _ _ _ Hseg) as [Ha Hc].
  assert (Hin : forall x, x ∈ [a; b; c] -> has_byte "/" x = false).
  { intros x Hx. rewrite <- Hseg in Hx. by apply genSplit_slash_no_slash in Hx. }
  split.
  { rewrite <- (Join_genSplit_slash (GoStrings.Trim (Url.Path uri) "/")).
    unfold segments, GoStrings.Split in Hseg. by rewrite Hseg. }
  split; [apply Hin; by left|].
  split; [apply Hin; by right; left|].
  split; [apply Hin; by right; right; left|].
  split; [done|]. split; [done|]. split; [by apply Hb|by apply He].
Qed.

(** Slashes in front of the path and behind it do not count: with a
    slash more on either side, or with all of them trimmed, the parser
    returns the same configuration, and an error for the same URIs. *)
Theorem ParseWorkloadConfig_slashes (p : string) (q : Url.Values) :
  let r := ParseWorkloadConfig range (Url.mkURL p q) in
  forall p', p' = String "/" p \/ p' = p +:+ "/" \/ p' = GoStrings.Trim p "/" ->
    (ParseWorkloadConfig range (Url.mkURL p' q)).1 = r.1 /\
    ((ParseWorkloadConfig range (Url.mkURL p' q)).2 = None <-> r.2 = None).
Proof.
  cbv zeta. intros p' Hp'.
  assert (Htrim : GoStrings.Trim p' "/" = GoStrings.Trim p "/").
  { destruct Hp' as [->|[->| ->]].
    - apply Trim_more_slashes.
    - apply Trim_more_slashes.
    - apply Trim_idempotent. }
  assert (Hseg : segments p' = segments p) by (unfold segments; by rewrite Htrim).
  destruct (ParseWorkloadConfig_cases range (Url.mkURL p q))
    as [[Hl ->]|(a & b & c & Hs & [[Hv ->]|[Hv ->]])]; cbn [Url.Path Url.Query] in *.
  - rewrite ParseWorkloadConfig_malformed; [done|]. cbn [Url.Path]. by rewrite Hseg.
  - rewrite (ParseWorkloadConfig_no_version range _ a b c); [done| |done].
    cbn [Url.Path]. by rewrite Hseg.
  - rewrite (ParseWorkloadConfig_segments range _ a b c); [done| |done].
    cbn [Url.Path]. by rewrite Hseg.
Qed.

End PathFacts.

(** ** The error of a row bound *)

(** [ParseUint] in base 10 over 64 bits fails with the syntax error or the
    range error, and with the range error when every byte is a digit. *)
Lemma ParseUint_cause (t : string) (un : Z) (e : Strconv.Err) :
  Strconv.ParseUint t 10 64 = (un, Some e) ->
  (e = Strconv.ErrSyntax \/ e = Strconv.ErrRange) /\
  (t <> "" -> is_Some (decimal_value 0 t) -> e = Strconv.ErrRange).
Proof.
  intros Hu. pose proof (ParseUint_decimal t) as H.
  destruct (decide (t = "")) as [->|Ht].
  - destruct H as [H|H]; rewrite H in Hu; injection Hu as <- <-;
      (split; [auto|done]).
  - destruct (decimal_value 0 t) as [v|].
    + destruct H as [_ H]. destruct (v <=? 2 ^ 64 - 1);
        rewrite H in Hu; [discriminate Hu|].
      injection Hu as <- <-. auto.
    + destruct H as [H|H]; rewrite H in Hu; injection Hu as <- <-;
        (split; [auto|]); by intros _ [x [=]].
Qed.

(** The error of [ParseInt] in base 10 over 64 bits names the function
    and the text it was given, sign and all; its cause is the syntax or the
    range, and it is the range when the text is a number in base 10. *)
Lemma ParseInt_cause (s : string) (err : Strconv.NumError) :
  (Strconv.ParseInt s 10 64).2 = Some err ->
  Strconv.Func err = "ParseInt" /\ Strconv.Num err = s /\
  (Strconv.Cause err = Strconv.ErrSyntax \/
   Strconv.Cause err = Strconv.ErrRange) /\
  (is_Some (decimal s) -> Strconv.Cause err = Strconv.ErrRange).
Proof.
  unfold Strconv.ParseInt, decimal. destruct s as [|c rest].
  { simpl. intros [= <-]. repeat split; [by left|by intros [x [=]]]. }
  assert (Hfin : forall (neg : bool) (t : string),
    (match Strconv.ParseUint t 10 64 with
     | (_, Some Strconv.ErrSyntax) =>
         (0, Some (Strconv.mkNumError "ParseInt" (String c rest) Strconv.ErrSyntax))
     | (_, Some Strconv.ErrBase) =>
         (0, Some (Strconv.mkNumError "ParseInt" (String c rest) Strconv.ErrBase))
     | (_, Some Strconv.ErrBitSize) =>
         (0, Some (Strconv.mkNumError "ParseInt" (String c rest) Strconv.ErrBitSize))
     | (un, _) =>
         let bitSize := if 64 =? 0 then Strconv.IntSize else 64 in
         let cutoff := 2 ^ (bitSize - 1) in
         if negb neg && (un >=? cutoff)
         then (cutoff - 1,
               Some (Strconv.mkNumError "ParseInt" (String c rest) Strconv.ErrRange))
         else if neg && (un >? cutoff)
         then (- cutoff,
               Some (Strconv.mkNumError "ParseInt" (String c rest) Strconv.ErrRange))
         else (if neg then - un else un, None)
     end).2 = Some err ->
    Strconv.Func err = "ParseInt" /\ Strconv.Num err = String c rest /\
    (Strconv.Cause err = Strconv.ErrSyntax \/
     Strconv.Cause err = Strconv.ErrRange) /\
    (t <> "" -> is_Some (decimal_value 0 t) ->
     Strconv.Cause err = Strconv.ErrRange)).
  { intros neg t.
    destruct (Strconv.ParseUint t 10 64) as [un [e|]] eqn:Hu.
    - apply ParseUint_cause in Hu as [Hk Hr].
      destruct e; try (by destruct Hk).
      + intros [= <-]. repeat split; [by left|].
        intros Ht Hd. by specialize (Hr Ht Hd).
      + cbv zeta.
        destruct (negb neg && _); [intros [= <-]; repeat split; auto|].
        destruct (neg && _); [intros [= <-]; repeat split; auto|].
        intros [=].
    - cbv zeta.
      destruct (negb neg && _); [intros [= <-]; repeat split; auto|].
      destruct (neg && _); [intros [= <-]; repeat split; auto|].
      intros [=]. }
  destruct (Ascii.eqb c "+") eqn:Hplus; [|destruct (Ascii.eqb c "-") eqn:Hminus].
  - intros H. destruct (Hfin false rest H) as (H1 & H2 & H3 & H4).
    repeat split; try done. case_decide as Hr; [by intros [x [=]]|]. by apply H4.
  - intros H. destruct (Hfin true rest H) as (H1 & H2 & H3 & H4).
    repeat split; try done. case_decide as Hr; [by intros [x [=]]|].
    intros [x Hx]. apply H4; [done|].
    destruct (decimal_value 0 rest); [by eexists|discriminate Hx].
  - intros H. destruct (Hfin false (String c rest) H) as (H1 & H2 & H3 & H4).
    repeat split; try done. by apply H4.
Qed.

Section RowErrors.

Variable range : Url.Values -> list (string * list string).

(** Which row bound the error is about: with three segments and a
    version, a first value of row-start that is not empty and no 64-bit
    integer is the one reported, whatever row-end holds; row-end is
    reported only when row-start was read.  The error names [ParseInt] and
    carries the text that was refused; its cause is the syntax or the
    range, and the range when the text is a number in base 10. *)
Theorem ParseWorkloadConfig_row_error (uri : Url.URL) (a b c : string) :
  segments (Url.Path uri) = [a; b; c] ->
  Url.Query uri !! "version" <> None ->
  let q := Url.Query uri in
  let s := Url.Get q "row-start" in
  let e := Url.Get q "row-end" in
  let refused (text : string) :=
    exists cause,
      ParseWorkloadConfig range uri =
        (no_config, Some (NumErr (Strconv.mkNumError "ParseInt" text cause))) /\
      (cause = Strconv.ErrSyntax \/ cause = Strconv.ErrRange) /\
      (is_Some (decimal text) -> cause = Strconv.ErrRange) in
  (s <> "" -> int64_decimal s = None -> refused s) /\
  (s = "" \/ is_Some (int64_decimal s) ->
   e <> "" -> int64_decimal e = None -> refused e).
Proof.
  intros Hseg Hv q s e refused. subst refused. cbv beta.
  rewrite (ParseWorkloadConfig_segments range uri a b c Hseg Hv).
  cbv zeta. fold q.
  assert (Hbad : forall k, Url.Get q k <> "" -> int64_decimal (Url.Get q k) = None ->
            exists cause,
              row_bound q k = ((row_bound q k).1,
                 Some (Strconv.mkNumError "ParseInt" (Url.Get q k) cause)) /\
              (cause = Strconv.ErrSyntax \/ cause = Strconv.ErrRange) /\
              (is_Some (decimal (Url.Get q k)) -> cause = Strconv.ErrRange)).
  { intros k Hne Hnone. unfold row_bound.
    destruct (decide (0 < String.length (Url.Get q k))%nat) as [Hlen|Hlen].
    2: { by apply length_pos_nonempty in Hne. }
    apply ParseInt_error_iff in Hnone.
    destruct (Strconv.ParseInt (Url.Get q k) 10 64) as [n [err|]] eqn:Hp;
      [|by destruct Hnone].
    destruct (ParseInt_cause (Url.Get q k) err) as (Hf & Hn & Hc & Hr).
    { by rewrite Hp. }
    exists (Strconv.Cause err). destruct err as [f num cause].
    simpl in *. subst f num. done. }
  split.
  - intros Hs Hnone. destruct (Hbad "row-start" Hs Hnone) as (cause & Hrb & Hc).
    exists cause. split; [|exact Hc]. by rewrite Hrb.
  - intros Hs He Hnone. destruct (Hbad "row-end" He Hnone) as (cause & Hrb & Hc).
    exists cause. split; [|exact Hc].
    assert (Hok : (row_bound q "row-start").2 = None).
    { apply row_bound_read. destruct Hs as [Hs|Hs]; [by left|right].
      by apply ParseInt_ok_iff. }
    destruct (row_bound q "row-start") as [n o]. simpl in Hok. subst o.
    by rewrite Hrb.
Qed.

End RowErrors.

(** ** From the URI to the row stream *)

Section EndToEnd.

Context {ExternalIODirConfig ClusterSettings : Type}.
Variable range : Url.Values -> list (string * list string).

(** Parsing, construction and reading together: when a URI parses and
    the adapter is constructed from what the parser returned, the first
    segment is csv in some letter case, the second names a registered
    generator whose version is the first value of the version parameter,
    the third names the table the adapter holds, and every read with the
    empty basename returns the stream over that table from the row bound
    the parser read off row-start to the one it read off row-end; [Conf]
    returns what the parser returned. *)
Theorem parse_construct_read
    (args : @ExternalStorageContext ExternalIODirConfig ClusterSettings)
    (uri : Url.URL) (es : ExternalStorage) (w w' : World)
    (s : @workloadStorage ExternalIODirConfig ClusterSettings) :
  ParseWorkloadConfig range uri = (es, None) ->
  makeWorkloadStorage args es w = (Ok s, w') ->
  exists a b c meta,
    segments (Url.Path uri) = [a; b; c] /\
    GoStrings.ToLower a = "csv" /\
    registered w !! b = Some meta /\
    Workload.Meta_Version meta = Url.Get (Url.Query uri) "version" /\
    Workload.Table_Name (table s) = c /\
    table s ∈ Workload.Tables (gen s) /\
    forall st : World,
      (ReadFile "" (s, st)).1 =
        Ok (Workload.mkCSVRowsReader (table s)
              (row_bound (Url.Query uri) "row-start").1
              (row_bound (Url.Query uri) "row-end").1) /\
      (Conf (s, st)).1 = Ok es.
Proof.
  intros Hp Hm.
  apply ParseWorkloadConfig_success in Hp as (a & b & c & Hseg & _ & ->).
  pose proof (f_equal fst Hm) as Hm1. cbn [fst] in Hm1.
  apply makeWorkloadStorage_ok_inv in Hm1 as
    (Hc & _ & _ & Hf & (meta & Hreg & Hv & _) & Hin & Hname & _).
  cbn [WorkloadConfig] in Hc. injection Hc as Hc.
  rewrite <- Hc in Hf, Hreg, Hv, Hname. cbn [Format Generator Version Table] in *.
  exists a, b, c, meta. repeat split; try done.
  - unfold ReadFile, bind, self, in_world, NewCSVRowsReader, ret; simpl.
    by rewrite <- Hc.
  - unfold Conf, bind, self, ret; simpl. by rewrite <- Hc.
Qed.

End EndToEnd.

(** ** The further theorems at concrete inputs *)

Lemma constructed_adapter_witness :
  exists s,
    (makeWorkloadStorage args0 (request "Csv" "1.0.0" "accounts") world0).1
      = Ok s /\
    table s ∈ Workload.Tables (gen s) /\
    Workload.Table_Name (table s) = "accounts".
Proof.
  destruct (makeWorkloadStorage args0 (request "Csv" "1.0.0" "accounts") world0).1
    as [s|e|msg] eqn:Hm; try (vm_compute in Hm; discriminate Hm).
  exists s. split; [reflexivity|].
  destruct (constructed_adapter args0 _ world0 s Hm)
    as (Hc & _ & _ & _ & _ & Hin & Hname & _).
  split; [exact Hin|]. rewrite Hname.
  cbn [request WorkloadConfig] in Hc. by injection Hc as <-.
Defined.

Lemma getters_of_constructed_witness :
  exists s w,
    makeWorkloadStorage args0 (request "csv" "1.0.0" "accounts") world0
      = (Ok s, w) /\
    (ExternalIOConf (s, w)).1 = Ok tt /\ (Settings_ (s, w)).1 = Ok tt.
Proof.
  destruct (makeWorkloadStorage args0 (request "csv" "1.0.0" "accounts") world0)
    as [r w] eqn:Hm.
  destruct r as [s|e|msg]; try (vm_compute in Hm; discriminate Hm).
  exists s, w. split; [reflexivity|].
  destruct (getters_of_constructed args0 _ world0 w s Hm) as [-> ->].
  by split.
Defined.

Lemma makeWorkloadStorage_format_spellings_witness :
  (makeWorkloadStorage args0 (request "tsv" "1.0.0" "accounts") world0).1 =
    Err (UnsupportedFormat "tsv") /\
  (makeWorkloadStorage args0 (request "CsV" "1.0.0" "accounts") world0).1 <>
    Err (UnsupportedFormat "CsV").
Proof.
  split.
  - apply (makeWorkloadStorage_format_spellings args0
             (request "tsv" "1.0.0" "accounts")
             (mkExternalStorage_Workload "tsv" "bank" "1.0.0" "accounts" [] 0 10)
             world0); [reflexivity|reflexivity|].
    rewrite !elem_of_cons, elem_of_nil. intros H.
    repeat (destruct H as [H|H]; [discriminate H|]). done.
  - intros H.
    apply (makeWorkloadStorage_format_spellings args0
             (request "CsV" "1.0.0" "accounts")
             (mkExternalStorage_Workload "CsV" "bank" "1.0.0" "accounts" [] 0 10)
             world0) in H; [|reflexivity|reflexivity].
    apply H. rewrite !elem_of_cons. do 5 right. by left.
Defined.

Lemma ParseWorkloadConfig_order_witness :
  (ParseWorkloadConfig map_to_list uri_flags).2 =
  (ParseWorkloadConfig (fun q => reverse (map_to_list q)) uri_flags).2.
Proof.
  assert (H1 : forall q : Url.Values, map_to_list q ≡ₚ map_to_list q)
    by (intros q; reflexivity).
  assert (H2 : forall q : Url.Values, reverse (map_to_list q) ≡ₚ map_to_list q)
    by (intros q; apply reverse_Permutation).
  exact (proj1 (ParseWorkloadConfig_order map_to_list
                  (fun q => reverse (map_to_list q)) uri_flags H1 H2)).
Defined.

Lemma ParseWorkloadConfig_wellformed_witness :
  GoStrings.Trim (Url.Path uri_bank) "/" = "csv/bank/accounts" /\
  has_byte "/" "accounts" = false.
Proof.
  assert (Hp : ParseWorkloadConfig map_to_list uri_bank =
                 (mkExternalStorage ExternalStorageProvider_Workload
                    (Some (mkExternalStorage_Workload "csv" "bank" "1.0.0"
                             "accounts" [] 0 10)), None))
    by reflexivity.
  destruct (ParseWorkloadConfig_wellformed map_to_list uri_bank _ Hp)
    as (H1 & _ & _ & H2 & _).
  split; [exact H1|exact H2].
Defined.

Lemma ParseWorkloadConfig_row_error_witness :
  ParseWorkloadConfig map_to_list uri_bad_row_start =
    (no_config,
     Some (NumErr (Strconv.mkNumError "ParseInt" "abc" Strconv.ErrSyntax))).
Proof.
  destruct (ParseWorkloadConfig_row_error map_to_list uri_bad_row_start
              "csv" "bank" "accounts" eq_refl) as [H _]; [discriminate|].
  destruct H as (cause & Hp & _); [discriminate|reflexivity|].
  rewrite Hp. vm_compute in Hp. by injection Hp as <-.
Defined.

Lemma parse_construct_read_witness :
  exists s w,
    makeWorkloadStorage args0 (ParseWorkloadConfig map_to_list uri_bank).1 world0
      = (Ok s, w) /\
    (ReadFile "" (s, w)).1 = Ok (Workload.mkCSVRowsReader accounts 0 10).
Proof.
  destruct (makeWorkloadStorage args0
              (ParseWorkloadConfig map_to_list uri_bank).1 world0)
    as [r w] eqn:Hm.
  destruct r as [s|e|msg]; try (vm_compute in Hm; discriminate Hm).
  exists s, w. split; [reflexivity|].
  destruct (parse_construct_read map_to_list args0 uri_bank _ world0 w s
              eq_refl Hm) as (a & b & c & meta & _ & _ & _ & _ & _ & _ & H).
  destruct (H w) as [-> _]. vm_compute in Hm. by injection Hm as <- _.
Defined.

(** ** Paths by their slashes *)

(** There is one segment more than there are slashes. *)
Lemma length_genSplit_slash (s : string) :
  List.length (GoStrings.genSplit s "/" 0) = S (count_byte "/" s).
Proof.
  induction s as [|c s IH]; [done|]. rewrite genSplit_slash_cons.
  cbn [count_byte]. destruct (Ascii.eqb c "/").
  - simpl. by rewrite IH.
  - destruct (GoStrings.genSplit s "/" 0); simpl in *; [done|lia].
Qed.

(** A string without slash is one segment, and a segment in front of a
    slash is split off. *)
Lemma genSplit_slash_segment (x : string) :
  has_byte "/" x = false ->
  GoStrings.genSplit x "/" 0 = [x] /\
  forall rest, GoStrings.genSplit (x +:+ String "/" rest) "/" 0 =
               x :: GoStrings.genSplit rest "/" 0.
Proof.
  induction x as [|c x IH]; intros Hx.
  - split; [done|]. intros rest.
    change ("" +:+ String "/" rest) with (String "/" rest).
    by rewrite genSplit_slash_cons.
  - cbn [has_byte] in Hx. apply orb_false_iff in Hx as [Hc Hx].
    destruct (IH Hx) as [IH1 IH2]. split.
    + by rewrite genSplit_slash_cons, Hc, IH1.
    + intros rest. rewrite append_cons, genSplit_slash_cons, Hc, IH2. done.
Qed.

Lemma has_byte_first (x : string) (c : ascii) :
  has_byte "/" x = false -> first_byte x = Some c ->
  GoStrings.in_cutset c "/" = false.
Proof.
  destruct x as [|d x]; [done|]. cbn [has_byte first_byte].
  intros Hx [= <-]. apply orb_false_iff in Hx as [Hx _].
  simpl. by rewrite Hx.
Qed.

Lemma has_byte_last (x : string) (c : ascii) :
  has_byte "/" x = false -> last_byte x = Some c ->
  GoStrings.in_cutset c "/" = false.
Proof.
  induction x as [|d x IH]; [done|]. cbn [has_byte].
  intros Hx. apply orb_false_iff in Hx as [Hd Hx].
  destruct x as [|d' x].
  - simpl. intros [= <-]. by rewrite Hd.
  - rewrite last_byte_cons by done. by apply IH.
Qed.

Lemma last_byte_append (x y : string) :
  y <> "" -> last_byte (x +:+ y) = last_byte y.
Proof.
  intros Hy. induction x as [|c x IH]; [done|].
  rewrite append_cons, last_byte_cons; [exact IH|].
  destruct x; [by destruct y|done].
Qed.

(** The path built from a format, a generator and a table has these
    three as its segments, when none of them has a slash and the format and
    the table are not empty. *)
Lemma segments_path_of (a b c : string) :
  has_byte "/" a = false -> has_byte "/" b = false ->
  has_byte "/" c = false -> a <> "" -> c <> "" ->
  segments (path_of a b c) = [a; b; c].
Proof.
  intros Ha Hb Hc Hane Hcne. unfold segments, path_of.
  change (a +:+ "/" +:+ b +:+ "/" +:+ c)
    with (a +:+ String "/" (b +:+ String "/" c)).
  destruct (Trim_more_slashes (a +:+ String "/" (b +:+ String "/" c)))
    as [-> _].
  assert (Ht : GoStrings.Trim (a +:+ String "/" (b +:+ String "/" c)) "/"
               = a +:+ String "/" (b +:+ String "/" c)).
  { unfold GoStrings.Trim. rewrite TrimRight_fixed.
    - apply TrimLeft_fixed. intros ch Hch.
      destruct a as [|d a]; [done|]. by apply (has_byte_first (String d a)).
    - intros ch Hch.
      rewrite last_byte_append in Hch by done.
      rewrite last_byte_cons in Hch by (by destruct b).
      rewrite last_byte_append in Hch by done.
      rewrite last_byte_cons in Hch by done. by apply (has_byte_last c). }
  rewrite Ht. unfold GoStrings.Split.
  destruct (genSplit_slash_segment a Ha) as [_ ->].
  destruct (genSplit_slash_segment b Hb) as [_ ->].
  by destruct (genSplit_slash_segment c Hc) as [-> _].
Qed.

Section SlashFacts.

Variable range : Url.Values -> list (string * list string).

(** The parser refuses the path exactly when the path, trimmed of the
    slashes at its two ends, has not two slashes; the empty path and the
    path of slashes only are refused. *)
Theorem ParseWorkloadConfig_malformed_iff (uri : Url.URL) :
  (ParseWorkloadConfig range uri).2 = Some (MalformedPath (Url.Path uri)) <->
  count_byte "/" (GoStrings.Trim (Url.Path uri) "/") <> 2%nat.
Proof.
  assert (Hlen : List.length (segments (Url.Path uri))
                 = S (count_byte "/" (GoStrings.Trim (Url.Path uri) "/"))).
  { apply length_genSplit_slash. }
  destruct (ParseWorkloadConfig_cases range uri)
    as [[Hl ->]|(a & b & c & Hseg & [[_ ->]|[_ ->]])].
  - split; [intros _|done]. lia.
  - rewrite Hseg in Hlen. simpl in Hlen. split; [|lia].
    intros H. exfalso.
    cbn [snd] in H. apply (inj Some) in H.
    by apply (MalformedPath_not_MissingVersion (Url.Path uri)).
  - rewrite Hseg in Hlen. simpl in Hlen. split; [|lia]. cbv zeta.
    destruct (row_bound (Url.Query uri) "row-start") as [n [err|]]; [done|].
    by destruct (row_bound (Url.Query uri) "row-end") as [m [err|]].
Qed.

(** The round trip from the names to the configuration: the URI whose
    path is built from a format, a generator and a table without slashes,
    the format and the table not empty, with a version and row bounds that
    are empty or integers of 64 bits, parses to the configuration with
    these three names. *)
Theorem ParseWorkloadConfig_path_of (a b c : string) (q : Url.Values) :
  has_byte "/" a = false -> has_byte "/" b = false ->
  has_byte "/" c = false -> a <> "" -> c <> "" ->
  is_Some (q !! "version") ->
  Url.Get q "row-start" = "" \/ is_Some (int64_decimal (Url.Get q "row-start")) ->
  Url.Get q "row-end" = "" \/ is_Some (int64_decimal (Url.Get q "row-end")) ->
  exists cfg,
    ParseWorkloadConfig range (Url.mkURL (path_of a b c) q) =
      (mkExternalStorage ExternalStorageProvider_Workload (Some cfg), None) /\
    Format cfg = a /\ Generator cfg = b /\ Table cfg = c.
Proof.
  intros Ha Hb Hc Hane Hcne Hv Hs He.
  destruct (ParseWorkloadConfig_round_trip range (Url.mkURL (path_of a b c) q)
              a b c) as (cfg & Hp & Hf & Hg & Ht & _).
  - by apply segments_path_of.
  - exact Hv.
  - destruct Hs as [Hs|Hs]; [by left|right]. by apply ParseInt_ok_iff.
  - destruct He as [He|He]; [by left|right]. by apply ParseInt_ok_iff.
  - by exists cfg.
Qed.

End SlashFacts.

Lemma ParseWorkloadConfig_path_of_witness :
  exists cfg,
    ParseWorkloadConfig map_to_list
      (Url.mkURL "/csv/bank/accounts" (query [("version", ["1.0.0"])])) =
      (mkExternalStorage ExternalStorageProvider_Workload (Some cfg), None) /\
    Format cfg = "csv" /\ Generator cfg = "bank" /\ Table cfg = "accounts".
Proof.
  apply (ParseWorkloadConfig_path_of map_to_list "csv" "bank" "accounts");
    try reflexivity; try discriminate; [by eexists|by left|by left].
Defined.

Lemma ParseWorkloadConfig_slashes_witness :
  (ParseWorkloadConfig map_to_list
     (Url.mkURL "//csv/bank/accounts" (Url.Query uri_bank))).1 =
  (ParseWorkloadConfig map_to_list uri_bank).1.
Proof.
  apply (ParseWorkloadConfig_slashes map_to_list "/csv/bank/accounts"
           (Url.Query uri_bank) "//csv/bank/accounts").
  by left.
Defined.
